(** * Inventory view: product service and Home component

    A shallow embedding of [services/productServices.ts] and of the logic of
    the [Home] component in [home.tsx]: the derived views (filtered list, page
    slice, page count, page buttons), the event handlers ([handleSearch],
    [paginate], [openModal], [closeModal], [updateStock]) and the rule set
    registered on the stock field of [StockModal].

    Conventions of the embedding.
    - A JavaScript string is a sequence of UTF-16 code units.  The module
      [Unicode] embeds [toLowerCase] and [includes] on such sequences, for the
      Basic Latin, Latin-1 and Greek letters, with the final-sigma rule of the
      language.  The state of the component holds strings of the code units
      0..255 (Basic Latin and Latin-1), as [string]; on those [toLowerCase]
      acts unit by unit, and [JS.toLowerCase], [JS.includes] are the [Unicode]
      functions restricted to them (lemmas [toLowerCase_widen],
      [includes_widen], [filteredProducts_widen]).
    - A JavaScript number that holds a count, an index, a page or a stock
      quantity is an integer of [Z].
    - React state is a record; a handler is a function from state to state.
      [setTimeout] appends to a queue of pending timers carried by the state,
      and a logical clock in milliseconds decides which timers have fired. *)

From Stdlib Require Import ZArith Ascii String DecimalString DecimalPos List.
From stdpp Require Import gmap strings list sorting.

Local Open Scope Z_scope.

(** ** The data model ([productServices.ts]) *)

Record Product := mkProduct {
  id : string;
  name : string;
  sku : string;
  category : string;
  stock : Z
}.

#[global] Instance Product_eq_dec : EqDecision Product.
Proof. solve_decision. Defined.

(** ** JavaScript string primitives used by the component *)

Module JS.

(** Code unit of the double quote, which the template literal of
    [updateStock] puts around the product name. *)
Definition dquote : string := String (ascii_of_nat 34) EmptyString.

(** [toLowerCase] on one code unit of the range 0..255: the letters A..Z
    and the Latin-1 capitals U+00C0..U+00DE, the multiplication sign
    U+00D7 excepted, move up by 32; every other unit is its own image. *)
Definition lower_unit (c : ascii) : ascii :=
  let n := N_of_ascii c in
  if ((65 <=? n) && (n <=? 90))%N
     || ((192 <=? n) && (n <=? 222) && negb (n =? 215))%N
  then ascii_of_N (n + 32)
  else c.

(** [s.toLowerCase()] *)
Fixpoint toLowerCase (s : string) : string :=
  match s with
  | EmptyString => EmptyString
  | String c s' => String (lower_unit c) (toLowerCase s')
  end.

(** [s.startsWith(sub)] *)
Fixpoint startsWith (s sub : string) {struct sub} : bool :=
  match sub with
  | EmptyString => true
  | String c sub' =>
      match s with
      | EmptyString => false
      | String d s' => Ascii.eqb c d && startsWith s' sub'
      end
  end.

(** [s.includes(sub)]: [sub] occurs in [s] at some position. *)
Fixpoint includes (s sub : string) : bool :=
  startsWith s sub
  || match s with
     | EmptyString => false
     | String _ s' => includes s' sub
     end.

(** [arr.find(pred)]: the first element that satisfies [pred], or
    [undefined]. *)
Fixpoint find {A} (pred : A -> bool) (arr : list A) : option A :=
  match arr with
  | [] => None
  | x :: arr' => if pred x then Some x else find pred arr'
  end.

(** [arr.filter(pred)] *)
Fixpoint filter {A} (pred : A -> bool) (arr : list A) : list A :=
  match arr with
  | [] => []
  | x :: arr' => if pred x then x :: filter pred arr' else filter pred arr'
  end.

(** [arr.map(f)] *)
Fixpoint map {A B} (f : A -> B) (arr : list A) : list B :=
  match arr with
  | [] => []
  | x :: arr' => f x :: map f arr'
  end.

(** [arr.slice(start, end)] with the relative-index rules of the language:
    a negative index counts from the end, and both indices are clamped to
    the array. *)
Definition slice_index (len i : Z) : Z :=
  if i <? 0 then Z.max (len + i) 0 else Z.min i len.

Definition slice {A} (arr : list A) (start end_ : Z) : list A :=
  let len := Z.of_nat (length arr) in
  let k := slice_index len start in
  let final := slice_index len end_ in
  take (Z.to_nat (final - k)) (drop (Z.to_nat k) arr).

(** [Math.ceil(a / b)] for integers [a] and a positive integer [b]. *)
Definition ceil_div (a b : Z) : Z := - ((- a) / b).

(** [String(n)] / template-literal conversion of an integer number: its
    decimal digits, as the language prints every integer that a number holds
    exactly (magnitude up to 2^53 - 1); larger magnitudes are outside this
    embedding. *)
Definition number_to_string (n : Z) : string :=
  NilZero.string_of_int (Z.to_int n).

End JS.

(** ** Strings of UTF-16 code units *)

Module Unicode.

(** The code units of a [string] of the component state. *)
Definition widen (s : string) : list N :=
  N_of_ascii <$> list_ascii_of_string s.

(** The code units embedded here: U+0000..U+00FF (Basic Latin and Latin-1
    Supplement), the Greek capitals U+0391..U+03A1 and U+03A3..U+03A9, and
    the Greek small letters U+03B1..U+03C9.  None of them is a surrogate, so
    a code unit is a code point. *)
Definition latin_capital (c : N) : bool :=
  (((65 <=? c) && (c <=? 90))
   || ((192 <=? c) && (c <=? 214))
   || ((216 <=? c) && (c <=? 222)))%N.

Definition greek_capital (c : N) : bool :=
  (((913 <=? c) && (c <=? 929)) || ((931 <=? c) && (c <=? 937)))%N.

Definition greek_small (c : N) : bool := ((945 <=? c) && (c <=? 969))%N.

Definition embedded (c : N) : bool :=
  (c <? 256)%N || greek_capital c || greek_small c.

(** The property Cased of the Unicode Character Database, on the embedded
    units: the capitals, the small letters, and U+00AA, U+00B5, U+00BA. *)
Definition cased (c : N) : bool :=
  (latin_capital c
   || ((97 <=? c) && (c <=? 122))
   || (c =? 170) || (c =? 181) || (c =? 186)
   || ((223 <=? c) && (c <=? 246))
   || ((248 <=? c) && (c <=? 255))
   || greek_capital c || greek_small c)%N.

(** The property Case_Ignorable, on the embedded units: apostrophe, full
    stop, colon, circumflex, grave, diaeresis, soft hyphen, macron, acute,
    middle dot and cedilla. *)
Definition case_ignorable (c : N) : bool :=
  ((c =? 39) || (c =? 46) || (c =? 58) || (c =? 94) || (c =? 96)
   || (c =? 168) || (c =? 173) || (c =? 175) || (c =? 180)
   || (c =? 183) || (c =? 184))%N.

(** The simple lowercase mapping: a capital moves up by 32. *)
Definition simple_lower (c : N) : N :=
  if latin_capital c || greek_capital c then (c + 32)%N else c.

(** What follows a unit, for the final-sigma rule: zero or more
    case-ignorable units and then a cased letter. *)
Fixpoint followed_by_cased (rest : list N) : bool :=
  match rest with
  | [] => false
  | c :: rest' => if case_ignorable c then followed_by_cased rest' else cased c
  end.

(** [toLowerCase], left to right.  [before] tells whether the units already
    read end with a cased letter and then zero or more case-ignorable units.
    The capital sigma U+03A3 becomes the final small sigma U+03C2 when it is
    preceded by such a run and not followed by a cased letter (the
    Final_Sigma condition of SpecialCasing, which the language applies), and
    the small sigma U+03C3 otherwise.  [None]: a unit is not embedded. *)
Fixpoint lower_from (before : bool) (s : list N) : option (list N) :=
  match s with
  | [] => Some []
  | c :: rest =>
      if embedded c then
        let c' :=
          if (c =? 931)%N then
            if before && negb (followed_by_cased rest) then 962%N else 963%N
          else simple_lower c in
        let before' := if case_ignorable c then before else cased c in
        match lower_from before' rest with
        | Some rest' => Some (c' :: rest')
        | None => None
        end
      else None
  end.

(** [s.toLowerCase()] *)
Definition toLowerCase (s : list N) : option (list N) := lower_from false s.

(** [s.startsWith(sub)] *)
Fixpoint startsWith (s sub : list N) {struct sub} : bool :=
  match sub with
  | [] => true
  | c :: sub' =>
      match s with
      | [] => false
      | d :: s' => (c =? d)%N && startsWith s' sub'
      end
  end.

(** [s.includes(sub)] *)
Fixpoint includes (s sub : list N) : bool :=
  startsWith s sub
  || match s with
     | [] => false
     | _ :: s' => includes s' sub
     end.

(** [p.name.toLowerCase().includes(searchQuery.toLowerCase())] *)
Definition name_matches (nm q : list N) : option bool :=
  match toLowerCase nm, toLowerCase q with
  | Some a, Some b => Some (includes a b)
  | _, _ => None
  end.

(** [products.filter(p => p.name.toLowerCase().includes(...))] of
    [home.tsx], for products of any representation [A] whose name reads as
    the code units [name_of p]. *)
Fixpoint filteredProducts {A} (name_of : A -> list N) (ps : list A) (q : list N)
    : option (list A) :=
  match ps with
  | [] => Some []
  | p :: ps' =>
      match name_matches (name_of p) q, filteredProducts name_of ps' q with
      | Some true, Some rest => Some (p :: rest)
      | Some false, Some rest => Some rest
      | _, _ => None
      end
  end.

(** A product whose strings are code units. *)
Record Product := mkProduct {
  id : list N;
  name : list N;
  sku : list N;
  category : list N;
  stock : Z
}.

End Unicode.

(** ** Component state *)

(** A pending [setTimeout] callback.  The component schedules one kind of
    callback only: [() => setSuccessMessage(null)]. *)
Record Timer := mkTimer { due : Z }.

Record HomeState := mkState {
  products : list Product;
  loading : bool;
  error : option string;
  currentPage : Z;
  modalProduct : option Product;
  successMessage : option string;
  searchParams : gmap string string;
  (* environment: the clock and the timers not fired yet, oldest first *)
  now : Z;
  timers : list Timer
}.

Definition productsPerPage : Z := 20.

(** [searchParams.get("search") || ""] *)
Definition searchQuery (st : HomeState) : string :=
  match searchParams st !! "search" with
  | Some v => if decide (v = "") then "" else v
  | None => ""
  end.

(** ** Derived views *)

Definition filteredProducts (ps : list Product) (q : string) : list Product :=
  JS.filter (fun p => JS.includes (JS.toLowerCase (name p)) (JS.toLowerCase q)) ps.

Definition currentProducts (filtered : list Product) (page : Z) : list Product :=
  JS.slice filtered ((page - 1) * productsPerPage) (page * productsPerPage).

Definition lowStockCount (filtered : list Product) : Z :=
  Z.of_nat (length (JS.filter (fun p => stock p <? 10) filtered)).

Definition totalPages (filtered : list Product) : Z :=
  JS.ceil_div (Z.of_nat (length filtered)) productsPerPage.

(** ** Page buttons *)

(** An entry of [pages : (number | string)[]]. *)
Inductive PageItem :=
  | PNum (n : Z)
  | PStr (s : string).

#[global] Instance PageItem_eq_dec : EqDecision PageItem.
Proof. solve_decision. Defined.

Definition ellipsis : PageItem := PStr "...".

(** [for (let i = lo; i <= hi; i++) pages.push(i)], the loop counter made
    explicit.  [fuel] bounds the number of iterations; [for_push] supplies
    the exact number the loop needs. *)
Fixpoint push_loop (fuel : nat) (i hi : Z) (pages : list PageItem) : list PageItem :=
  match fuel with
  | O => pages
  | S fuel' =>
      if i <=? hi then push_loop fuel' (i + 1) hi (pages ++ [PNum i]) else pages
  end.

Definition for_push (lo hi : Z) (pages : list PageItem) : list PageItem :=
  push_loop (Z.to_nat (hi - lo + 1)) lo hi pages.

(** [getPageButtons], closed over [totalPages] and [currentPage]. *)
Definition getPageButtons (totalPages currentPage : Z) : list PageItem :=
  let pages := [] in
  let total := if totalPages =? 0 then 1 else totalPages in
  if total <=? 5 then
    for_push 1 total pages
  else
    let pages := pages ++ [PNum 1] in
    let pages := if 3 <? currentPage then pages ++ [PStr "..."] else pages in
    let pages :=
      for_push (Z.max 2 (currentPage - 1)) (Z.min (total - 1) (currentPage + 1)) pages in
    let pages := if currentPage <? total - 2 then pages ++ [PStr "..."] else pages in
    pages ++ [PNum total].

(** The views of one render, read off the state. *)
Definition filtered (st : HomeState) : list Product :=
  filteredProducts (products st) (searchQuery st).

Definition pageButtons (st : HomeState) : list PageItem :=
  getPageButtons (totalPages (filtered st)) (currentPage st).

(** [disabled={currentPage === 1}] on Previous *)
Definition previousDisabled (st : HomeState) : bool :=
  currentPage st =? 1.

(** [disabled={currentPage === totalPages}] on Next *)
Definition nextDisabled (st : HomeState) : bool :=
  currentPage st =? totalPages (filtered st).

(** ** State setters *)

Definition setProducts (f : list Product -> list Product) (st : HomeState) : HomeState :=
  mkState (f (products st)) (loading st) (error st) (currentPage st)
    (modalProduct st) (successMessage st) (searchParams st) (now st) (timers st).

Definition setLoading (b : bool) (st : HomeState) : HomeState :=
  mkState (products st) b (error st) (currentPage st)
    (modalProduct st) (successMessage st) (searchParams st) (now st) (timers st).

Definition setError (e : option string) (st : HomeState) : HomeState :=
  mkState (products st) (loading st) e (currentPage st)
    (modalProduct st) (successMessage st) (searchParams st) (now st) (timers st).

Definition setCurrentPage (page : Z) (st : HomeState) : HomeState :=
  mkState (products st) (loading st) (error st) page
    (modalProduct st) (successMessage st) (searchParams st) (now st) (timers st).

Definition setModalProduct (m : option Product) (st : HomeState) : HomeState :=
  mkState (products st) (loading st) (error st) (currentPage st)
    m (successMessage st) (searchParams st) (now st) (timers st).

Definition setSuccessMessage (m : option string) (st : HomeState) : HomeState :=
  mkState (products st) (loading st) (error st) (currentPage st)
    (modalProduct st) m (searchParams st) (now st) (timers st).

Definition setSearchParams (init : gmap string string) (st : HomeState) : HomeState :=
  mkState (products st) (loading st) (error st) (currentPage st)
    (modalProduct st) (successMessage st) init (now st) (timers st).

(** [setTimeout(callback, delay)]: one more pending timer. *)
Definition setTimeout (delay : Z) (st : HomeState) : HomeState :=
  mkState (products st) (loading st) (error st) (currentPage st)
    (modalProduct st) (successMessage st) (searchParams st) (now st)
    (timers st ++ [mkTimer (now st + delay)]).

(** ** Event handlers *)

Definition paginate (page : Z) (st : HomeState) : HomeState :=
  setCurrentPage page st.

Definition handleSearch (value : string) (st : HomeState) : HomeState :=
  let st := setSearchParams (if decide (value = "") then ∅ else {[ "search" := value ]}) st in
  setCurrentPage 1 st.

Definition openModal (product : Product) (st : HomeState) : HomeState :=
  setModalProduct (Some product) st.

Definition closeModal (st : HomeState) : HomeState :=
  setModalProduct None st.

(** [{ ...p, stock: newStock }] *)
Definition with_stock (p : Product) (newStock : Z) : Product :=
  mkProduct (id p) (name p) (sku p) (category p) newStock.

(** [products.find(p => p.id === id)?.name || "Product"] *)
Definition productName (ps : list Product) (i : string) : string :=
  match JS.find (fun p => String.eqb (id p) i) ps with
  | Some p => if decide (name p = "") then "Product" else name p
  | None => "Product"
  end.

Definition stockMessage (pname : string) (newStock : Z) : string :=
  "Stock for " +:+ JS.dquote +:+ pname +:+ JS.dquote +:+ " updated to "
    +:+ JS.number_to_string newStock.

Definition updateStock (i : string) (newStock : Z) (st : HomeState) : HomeState :=
  let pname := productName (products st) i in
  let st :=
    setProducts
      (fun prev => JS.map (fun p => if String.eqb (id p) i then with_stock p newStock else p) prev)
      st in
  let st := setSuccessMessage (Some (stockMessage pname newStock)) st in
  let st := setTimeout 3000 st in
  closeModal st.

(** ** The timer queue *)

(** The callback of every timer the component creates. *)
Definition fire (tm : Timer) (st : HomeState) : HomeState :=
  setSuccessMessage None st.

Definition is_due (t : Z) (tm : Timer) : bool := due tm <=? t.

(** The clock reaches [t]: the timers due by then run, oldest first, and
    leave the queue. *)
Definition advance (t : Z) (st : HomeState) : HomeState :=
  let fired := JS.filter (is_due t) (timers st) in
  let pending := JS.filter (fun tm => negb (is_due t tm)) (timers st) in
  let st := fold_left (fun s tm => fire tm s) fired st in
  mkState (products st) (loading st) (error st) (currentPage st)
    (modalProduct st) (successMessage st) (searchParams st) (Z.max t (now st)) pending.

(** ** The stock form of [StockModal] *)

Module StockModal.

(** The three rules registered on the field ["stock"]. *)
Inductive Rule := Required | Min | Pattern.

#[global] Instance Rule_eq_dec : EqDecision Rule.
Proof. solve_decision. Defined.

Definition message (r : Rule) : string :=
  match r with
  | Required => "Stock is required"
  | Min => "Stock must be 0 or more"
  | Pattern => "Only integers allowed"
  end.

(** [min: { value: 0, ... }] *)
Definition min_value : Z := 0.

Definition is_digit (c : ascii) : bool :=
  let n := N_of_ascii c in ((48 <=? n) && (n <=? 57))%N.

Fixpoint all_digits (s : string) : bool :=
  match s with
  | EmptyString => true
  | String c s' => is_digit c && all_digits s'
  end.

(** [/^[0-9]+$/.test(s)]: without the [m] flag the anchors are the two ends
    of the text, so the text is one or more digits and nothing else. *)
Definition pattern_test (s : string) : bool :=
  match s with
  | EmptyString => false
  | String _ _ => all_digits s
  end.

(** Value of a run of decimal digits, most significant first. *)
Fixpoint digits_value (acc : Z) (s : string) : Z :=
  match s with
  | EmptyString => acc
  | String c s' => digits_value (10 * acc + (Z.of_N (N_of_ascii c) - 48)) s'
  end.

(** The numeric reading [+value] that the [min] rule compares, on the texts
    made of an optional sign and one or more decimal digits.  Any other text
    (blanks, fractions, exponents, radix prefixes, or no number at all) is
    outside this embedding and reads as [None]. *)
Definition to_number (s : string) : option Z :=
  match s with
  | String "-" ds => if pattern_test ds then Some (- digits_value 0 ds) else None
  | String "+" ds => if pattern_test ds then Some (digits_value 0 ds) else None
  | _ => if pattern_test s then Some (digits_value 0 s) else None
  end.

(** Each rule on its own: [Some true] when the rule rejects the text,
    [Some false] when it lets it through.  The form library skips [min] and
    [pattern] on an empty field, which [required] alone judges. *)
Definition rejects (r : Rule) (value : string) : option bool :=
  match r with
  | Required => Some (bool_decide (value = ""))
  | Min =>
      if decide (value = "") then Some false
      else (fun n => n <? min_value) <$> to_number value
  | Pattern =>
      if decide (value = "") then Some false
      else Some (negb (pattern_test value))
  end.

(** The rules registered on the field. *)
Definition rules : list Rule := [Required; Min; Pattern].

(** Some rule is known to reject the text: the submission is blocked,
    whatever the other rules say. *)
Definition blocked (value : string) : bool :=
  existsb (fun r => bool_decide (rejects r value = Some true)) rules.

(** Every rule is known to let the text through. *)
Definition cleared (value : string) : bool :=
  forallb (fun r => bool_decide (rejects r value = Some false)) rules.

(** [handleSubmit(submit)] on a field holding [value]: the submission is
    blocked as soon as one rule rejects, and [submit] runs, on the field's
    value, when every rule lets it through.  The inner option is [None] when
    the submission is blocked; the outer one is [None] when no rule is known
    to reject and the verdict of [min] is not embedded. *)
Definition handleSubmit {A} (submit : string -> A) (value : string) : option (option A) :=
  if blocked value then Some None
  else if cleared value then Some (Some (submit value))
  else None.

End StockModal.

(** ** The product service ([productServices.ts]) *)

Module ProductService.

(** Outcome of awaiting a promise. *)
Inductive Promise (A : Type) :=
  | Fulfilled (a : A)
  | Rejected.
Arguments Fulfilled {A} a.
Arguments Rejected {A}.

(** The module constant [products], read from [data/products.json], is the
    [store] argument; each operation returns the store it leaves behind. *)
Definition getProducts (store : list Product) : Promise (list Product) * list Product :=
  (Fulfilled store, store).

Definition getProductById (i : string) (store : list Product)
  : Promise (option Product) * list Product :=
  (Fulfilled (JS.find (fun product => String.eqb (id product) i) store), store).

End ProductService.

(** [fetchProducts] of the mount effect, once the promise has settled. *)
Definition fetchProducts (outcome : ProductService.Promise (list Product))
    (st : HomeState) : HomeState :=
  let st :=
    match outcome with
    | ProductService.Fulfilled data => setProducts (fun _ => data) st
    | ProductService.Rejected => setError (Some "Failed to fetch products. Please try again.") st
    end in
  setLoading false st.

(** The state of the first render. *)
Definition initialState (query : gmap string string) : HomeState :=
  mkState [] true None 1 None None query 0 [].

(** ** What one render shows *)

(** [filteredProducts.length - lowStockCount], the In Stock counter. *)
Definition inStockCount (filtered : list Product) : Z :=
  Z.of_nat (length filtered) - lowStockCount filtered.

(** Truthiness of a [string | null]: neither [null] nor the empty string. *)
Definition truthy (o : option string) : bool :=
  match o with
  | Some s => negb (String.eqb s "")
  | None => false
  end.

(** The table card: ten skeleton rows while loading, else the error text,
    else the rows of the current page. *)
Inductive TableCard :=
  | Skeleton (rows : nat)
  | ErrorBox (message : string)
  | Table (rows : list Product).

Definition tableCard (st : HomeState) : TableCard :=
  if loading st then Skeleton 10
  else if truthy (error st) then
    ErrorBox (match error st with Some e => e | None => "" end)
  else Table (currentProducts (filtered st) (currentPage st)).

(** [{!loading && <div className="users-pagination">...}] *)
Definition paginationShown (st : HomeState) : bool := negb (loading st).

(** [className={currentPage === item ? "active" : ""}]: strict equality of
    the current page with a button's entry; a string entry never equals it. *)
Definition isActive (currentPage : Z) (item : PageItem) : bool :=
  match item with
  | PNum n => currentPage =? n
  | PStr _ => false
  end.

(** The page numbers among the entries, in order. *)
Definition page_numbers (items : list PageItem) : list Z :=
  omap (fun item => match item with PNum n => Some n | PStr _ => None end) items.

(** ** The events of the rendered view

    What the user, the settled fetch and the clock can do to a rendered
    state.  A control that the render leaves out or disables has no effect. *)
Inductive Event :=
  | Settle (outcome : ProductService.Promise (list Product))
      (* the promise of the mount effect settles *)
  | Search (value : string)          (* onChange of the search input *)
  | Previous                         (* click on Previous *)
  | Next                             (* click on Next *)
  | PageButton (k : nat)             (* click on the k-th entry of the pages *)
  | Row (k : nat)                    (* click on the k-th row of the table *)
  | Save (newStock : Z)              (* the modal form submits a valid value *)
  | Cancel                           (* Cancel, or a click on the overlay *)
  | Clock (t : Z).                   (* the clock reaches t *)

Definition step (e : Event) (st : HomeState) : HomeState :=
  match e with
  | Settle outcome =>
      (* the effect runs once, on mount; [loading] is true until it settles *)
      if loading st then fetchProducts outcome st else st
  | Search value => handleSearch value st
  | Previous =>
      if paginationShown st && negb (previousDisabled st)
      then paginate (currentPage st - 1) st else st
  | Next =>
      if paginationShown st && negb (nextDisabled st)
      then paginate (currentPage st + 1) st else st
  | PageButton k =>
      if paginationShown st then
        match pageButtons st !! k with
        | Some (PNum n) => paginate n st
        | Some (PStr _) | None => st
        end
      else st
  | Row k =>
      match tableCard st with
      | Table rows =>
          match rows !! k with
          | Some product => openModal product st
          | None => st
          end
      | _ => st
      end
  | Save newStock =>
      match modalProduct st with
      | Some m => updateStock (id m) newStock st
      | None => st
      end
  | Cancel => closeModal st
  | Clock t => if now st <=? t then advance t st else st
  end.

Definition run (events : list Event) (st : HomeState) : HomeState :=
  fold_left (fun s e => step e s) events st.

(** The component mounted on the service: first render, then the settled
    [getProducts]. *)
Definition mount (store : list Product) (query : gmap string string) : HomeState :=
  step (Settle (fst (ProductService.getProducts store))) (initialState query).

(** What the proofs below maintain along every run: the page is at least 1;
    nothing is loaded and no modal is open while loading; an open modal is on
    a product of the collection; a message on screen has a pending timer; no
    pending timer is due later than 3000 ms from now. *)
Definition invariant (st : HomeState) : Prop :=
  1 <= currentPage st
  /\ (loading st = true -> products st = [] /\ modalProduct st = None)
  /\ (forall m, modalProduct st = Some m -> exists p, p ∈ products st /\ id p = id m)
  /\ (successMessage st = None \/ timers st <> [])
  /\ Forall (fun tm => due tm <= now st + 3000) (timers st).

(** ** A sample state

    One product, loaded, with the search text [wid]. *)

Module Scenario.

Definition widget : Product := mkProduct "1" "Widget" "W1" "Tools" 3.

Definition loaded : HomeState :=
  handleSearch "wid"
    (fetchProducts (ProductService.Fulfilled [widget]) (initialState ∅)).

End Scenario.

(** ** Vocabulary of the specification

    The definitions below follow the wording of the specification and are
    independent of the component's code; the theorems compare the two. *)

Module Spec.

(** The capital letters of the Basic Latin, Latin-1 and Greek blocks, by
    their code units: A..Z, the accented capitals U+00C0..U+00DE without the
    multiplication sign U+00D7, and the Greek capitals. *)
Definition capital (u : N) : Prop :=
  (65 <= u <= 90 \/ 192 <= u <= 214 \/ 216 <= u <= 222
   \/ 913 <= u <= 929 \/ 931 <= u <= 937)%N.

(** [l] is a small form of the capital [u]: 32 code units above it, or, for
    the capital sigma, the final small sigma 31 above it. *)
Definition small_of (u l : N) : Prop :=
  capital u /\ (l = u + 32 \/ (u = 931 /\ l = 962))%N.

(** Two code units are the same letter up to case: the same unit, or a
    capital and one of its small forms. *)
Definition same_unit (c d : N) : Prop :=
  c = d \/ small_of c d \/ small_of d c.


(** Two code units of a [string] are the same letter up to case. *)
Definition same_letter (c d : ascii) : Prop :=
  same_unit (N_of_ascii c) (N_of_ascii d).

(** Two texts are equal up to the case of their letters. *)
Inductive same_ignoring_case : string -> string -> Prop :=
  | sic_empty : same_ignoring_case "" ""
  | sic_unit c d a b :
      same_letter c d -> same_ignoring_case a b ->
      same_ignoring_case (String c a) (String d b).

(** [text] contains [s] as a case-insensitive substring: some run of
    consecutive units of [text] equals [s] up to case. *)
Definition contains_ignoring_case (text s : string) : Prop :=
  exists pre mid post,
    text = pre +:+ mid +:+ post /\ same_ignoring_case mid s.


(** The pages [a], [a+1], ..., [b] as buttons. *)
Definition pages_from_to (a b : Z) : list PageItem :=
  PNum <$> seqZ a (b - a + 1).

Definition ellipsis_when (b : bool) : list PageItem :=
  if b then [ellipsis] else [].

(** The page button sequence for [t] pages when the current page is [c]. *)
Definition page_buttons (t c : Z) : list PageItem :=
  if decide (t <= 5) then pages_from_to 1 t
  else
    [PNum 1]
    ++ ellipsis_when (bool_decide (c > 3))
    ++ pages_from_to (Z.max 2 (c - 1)) (Z.min (t - 1) (c + 1))
    ++ ellipsis_when (bool_decide (c < t - 2))
    ++ [PNum t].

(** Number of ellipsis entries in a run of buttons. *)
Definition ellipses (l : list PageItem) : nat :=
  length (base.filter (fun item => item = ellipsis) l).

(** [k] is the ceiling of [a / b]: the least integer with [a <= k * b]. *)
Definition is_ceiling (a b k : Z) : Prop :=
  a <= k * b /\ forall k', a <= k' * b -> k <= k'.

(** The message set by an edit of the state [st] stays on screen for the
    three seconds that follow the edit. *)
Definition message_kept_three_seconds (st : HomeState) (i : string) (n : Z) : Prop :=
  forall t, now st <= t < now st + 3000 ->
    successMessage (advance t (updateStock i n st))
    = successMessage (updateStock i n st).

(** The current page is one of the pages [1..max(1, totalPages)]. *)
Definition page_in_range (st : HomeState) : Prop :=
  1 <= currentPage st <= Z.max 1 (totalPages (filtered st)).

(** Two collections list the same products, stock apart: position by
    position the id, name, sku and category agree. *)
Definition same_catalogue (ps qs : list Product) : Prop :=
  Forall2 (fun p q => id p = id q /\ name p = name q /\ sku p = sku q
                      /\ category p = category q) ps qs.

End Spec.

(** * Properties *)

(** ** Strings *)

Section Strings.

Lemma app_empty_l (s : string) : "" +:+ s = s.
Proof. reflexivity. Qed.

Lemma app_cons (c : ascii) (a b : string) :
  String c a +:+ b = String c (a +:+ b).
Proof. reflexivity. Qed.

Lemma app_empty_r (s : string) : s +:+ "" = s.
Proof. induction s as [|c s IH]; [done|]. by rewrite app_cons, IH. Qed.

Lemma app_assoc_s (a b c : string) : (a +:+ b) +:+ c = a +:+ (b +:+ c).
Proof. induction a as [|x a IH]; [done|]. by rewrite !app_cons, IH. Qed.

Lemma startsWith_true (s sub : string) :
  JS.startsWith s sub = true <-> exists post, s = sub +:+ post.
Proof.
  revert s. induction sub as [|c sub IH]; intros s; simpl.
  - split; [intros _; by exists s | done].
  - destruct s as [|d s].
    + split; [done | intros [post H]; discriminate H].
    + rewrite andb_true_iff, Ascii.eqb_eq, IH. split.
      * intros [-> [post ->]]. by exists post.
      * intros [post H]. rewrite app_cons in H. injection H as -> ->.
        split; [done | by exists post].
Qed.

(** [includes] decides "occurs somewhere in". *)
Lemma includes_true (s sub : string) :
  JS.includes s sub = true <-> exists pre post, s = pre +:+ sub +:+ post.
Proof.
  induction s as [|c s IH]; simpl.
  - rewrite orb_false_r, startsWith_true. split.
    + intros [post H]. by exists "", post.
    + intros [pre [post H]]. destruct pre; [by exists post | discriminate H].
  - rewrite orb_true_iff, startsWith_true, IH. split.
    + intros [[post H] | [pre [post H]]].
      * by exists "", post.
      * exists (String c pre), post. by rewrite app_cons, <- H.
    + intros [pre [post H]]. destruct pre as [|d pre].
      * left. by exists post.
      * right. rewrite app_cons in H. injection H as _ H. by exists pre, post.
Qed.

Lemma includes_empty (s : string) : JS.includes s "" = true.
Proof. apply includes_true. by exists "", s. Qed.

Lemma toLowerCase_app (a b : string) :
  JS.toLowerCase (a +:+ b) = JS.toLowerCase a +:+ JS.toLowerCase b.
Proof. induction a as [|c a IH]; [done|]. simpl. by rewrite !app_cons, IH. Qed.

(** A split of the lowered text comes from a split of the text. *)
Lemma toLowerCase_split (text a b : string) :
  JS.toLowerCase text = a +:+ b ->
  exists x y, text = x +:+ y /\ JS.toLowerCase x = a /\ JS.toLowerCase y = b.
Proof.
  revert text. induction a as [|c a IH]; intros text H.
  - by exists "", text.
  - destruct text as [|d text]; [discriminate H|].
    simpl in H. rewrite app_cons in H. injection H as Hc H.
    destruct (IH _ H) as (x & y & -> & Hx & Hy).
    exists (String d x), y. simpl. by rewrite Hc, Hx.
Qed.

Lemma lower_unit_idem (c : ascii) :
  JS.lower_unit (JS.lower_unit c) = JS.lower_unit c.
Proof. by destruct c as [[] [] [] [] [] [] [] []]. Qed.

(** On the units 0..255 the lowering of the component is the simple
    lowercase mapping of the code unit. *)
Lemma lower_unit_code (c : ascii) :
  N_of_ascii (JS.lower_unit c) = Unicode.simple_lower (N_of_ascii c).
Proof. by destruct c as [[] [] [] [] [] [] [] []]. Qed.

Lemma latin_capital_spec (n : N) :
  Unicode.latin_capital n = true
  <-> (65 <= n <= 90 \/ 192 <= n <= 214 \/ 216 <= n <= 222)%N.
Proof.
  unfold Unicode.latin_capital.
  rewrite !orb_true_iff, !andb_true_iff, !N.leb_le. tauto.
Qed.

Lemma greek_capital_spec (n : N) :
  Unicode.greek_capital n = true <-> (913 <= n <= 929 \/ 931 <= n <= 937)%N.
Proof.
  unfold Unicode.greek_capital.
  rewrite !orb_true_iff, !andb_true_iff, !N.leb_le. tauto.
Qed.

(** Two units of 0..255 have the same lowercase exactly when they are the
    same letter up to case. *)
Lemma simple_lower_same (n m : N) :
  (n < 256)%N -> (m < 256)%N ->
  Unicode.simple_lower n = Unicode.simple_lower m <-> Spec.same_unit n m.
Proof.
  intros Hn Hm. unfold Unicode.simple_lower, Spec.same_unit, Spec.small_of, Spec.capital.
  pose proof (latin_capital_spec n) as Ln. pose proof (latin_capital_spec m) as Lm.
  pose proof (greek_capital_spec n) as Gn. pose proof (greek_capital_spec m) as Gm.
  destruct (Unicode.greek_capital n); [lia|].
  destruct (Unicode.greek_capital m); [lia|].
  rewrite !orb_false_r.
  destruct (Unicode.latin_capital n), (Unicode.latin_capital m); lia.
Qed.

Lemma lower_unit_same (c d : ascii) :
  JS.lower_unit c = JS.lower_unit d <-> Spec.same_letter c d.
Proof.
  unfold Spec.same_letter.
  rewrite <- simple_lower_same by apply N_ascii_bounded.
  rewrite <- !lower_unit_code. split; [by intros -> |].
  intros H. apply (f_equal ascii_of_N) in H. by rewrite !ascii_N_embedding in H.
Qed.

Lemma same_ignoring_case_lower (a b : string) :
  Spec.same_ignoring_case a b <-> JS.toLowerCase a = JS.toLowerCase b.
Proof.
  split.
  - induction 1 as [|c d a b Hcd _ IH]; [done|].
    apply lower_unit_same in Hcd. simpl. by rewrite Hcd, IH.
  - revert b. induction a as [|c a IH]; intros [|d b] H; try discriminate H.
    + constructor.
    + simpl in H. injection H as Hc H.
      constructor; [by apply lower_unit_same | by apply IH].
Qed.

(** The test of [filteredProducts] decides the specification's relation. *)
Lemma includes_lower_spec (text s : string) :
  JS.includes (JS.toLowerCase text) (JS.toLowerCase s) = true
  <-> Spec.contains_ignoring_case text s.
Proof.
  rewrite includes_true. split.
  - intros (pre & post & H).
    apply toLowerCase_split in H as (x & rest & -> & _ & H).
    apply toLowerCase_split in H as (mid & y & -> & Hmid & _).
    exists x, mid, y. split; [done | by apply same_ignoring_case_lower].
  - intros (pre & mid & post & -> & H).
    apply same_ignoring_case_lower in H.
    exists (JS.toLowerCase pre), (JS.toLowerCase post).
    by rewrite !toLowerCase_app, H.
Qed.

End Strings.

(** ** Arrays *)

Section Arrays.
Context {A B : Type}.




Lemma map_length (f : A -> B) (l : list A) : length (JS.map f l) = length l.
Proof. induction l as [|x l IH]; simpl; [done | by rewrite IH]. Qed.

Lemma map_lookup (f : A -> B) (l : list A) (k : nat) :
  JS.map f l !! k = f <$> l !! k.
Proof.
  revert k. induction l as [|x l IH]; intros [|k]; simpl; by try apply IH.
Qed.

Lemma map_fmap (f : A -> B) (l : list A) : JS.map f l = f <$> l.
Proof. induction l as [|x l IH]; simpl; [done | by rewrite IH]. Qed.

Lemma find_some (pred : A -> bool) (l : list A) (x : A) :
  JS.find pred l = Some x -> x ∈ l /\ pred x = true.
Proof.
  induction l as [|y l IH]; simpl; [done|].
  destruct (pred y) eqn:E.
  - intros [= ->]. split; [apply list_elem_of_here | done].
  - intros H. destruct (IH H) as [Hin Hp]. split; [by apply list_elem_of_further | done].
Qed.

Lemma find_none (pred : A -> bool) (l : list A) :
  JS.find pred l = None <-> Forall (fun x => pred x = false) l.
Proof.
  induction l as [|y l IH]; simpl.
  - split; [constructor | done].
  - destruct (pred y) eqn:E.
    + split; [done | intros H; inversion H; congruence].
    + rewrite IH. split; [by constructor | intros H; by inversion H].
Qed.

End Arrays.

(** ** The component's strings as code units *)

Section Widen.










End Widen.

(** ** The filtered list *)



(** The final-sigma rule at work, and the lowering of a Latin text. *)
Example toLowerCase_sigma_examples :
  Unicode.toLowerCase [913; 931; 913]%N = Some [945; 963; 945]%N
  /\ Unicode.toLowerCase [913; 931]%N = Some [945; 962]%N
  /\ Unicode.toLowerCase [913; 931; 46; 913]%N = Some [945; 963; 46; 945]%N
  /\ Unicode.toLowerCase (Unicode.widen "Widget") = Some (Unicode.widen "widget").
Proof. by repeat split. Qed.

(** ** The page slice *)

Section Slice.
Context {A : Type}.

(** With indices in order and not negative, [slice] is take-after-drop. *)
Lemma slice_window (l : list A) (start end_ : Z) :
  0 <= start <= end_ ->
  JS.slice l start end_
  = take (Z.to_nat (end_ - start)) (drop (Z.to_nat start) l).
Proof.
  intros H. unfold JS.slice, JS.slice_index.
  destruct (Z.ltb_spec start 0) as [?|_]; [lia|].
  destruct (Z.ltb_spec end_ 0) as [?|_]; [lia|].
  destruct (Z.le_gt_cases (Z.of_nat (length l)) start) as [Hout|Hin].
  - rewrite !drop_ge by lia. by rewrite !take_nil.
  - rewrite (Z.min_l start) by lia.
    destruct (Z.le_gt_cases end_ (Z.of_nat (length l))) as [Hle|Hgt].
    + by rewrite Z.min_l by lia.
    + rewrite Z.min_r by lia.
      rewrite !take_ge; [done | rewrite length_drop; lia ..].
Qed.

End Slice.

(** C2. For every filtered list and every current page [p >= 1], the page
    slice is the contiguous window of the filtered list that starts at index
    [(p-1)*20] and holds at most 20 items; page 1 of the empty list is the
    empty slice. *)
Theorem currentProducts_is_window (l : list Product) (p : Z) :
  1 <= p ->
  currentProducts l p = take 20 (drop (Z.to_nat ((p - 1) * 20)) l)
  /\ (forall k : nat,
        currentProducts l p !! k
        = if decide (k < 20)%nat then l !! (Z.to_nat ((p - 1) * 20) + k)%nat else None)
  /\ (length (currentProducts l p) <= 20)%nat
  /\ currentProducts [] 1 = [].
Proof.
  intros Hp.
  assert (E : currentProducts l p = take 20 (drop (Z.to_nat ((p - 1) * 20)) l)).
  { unfold currentProducts, productsPerPage.
    rewrite slice_window by lia. do 2 f_equal. lia. }
  split; [exact E|]. split; [|split].
  - intros k. rewrite E, lookup_take. destruct (decide (k < 20)%nat); [|done].
    by rewrite lookup_drop.
  - rewrite E, length_take. lia.
  - reflexivity.
Qed.

Lemma currentProducts_is_window_witness :
  1 <= 1
  /\ currentProducts [mkProduct "1" "Widget" "W1" "Tools" 3] 1
     = take 20 (drop (Z.to_nat ((1 - 1) * 20)) [mkProduct "1" "Widget" "W1" "Tools" 3]).
Proof.
  split; [lia|].
  destruct (currentProducts_is_window [mkProduct "1" "Widget" "W1" "Tools" 3] 1) as [E _];
    [lia | exact E].
Defined.

(** ** The page count *)

Lemma ceil_div_is_ceiling (a b : Z) :
  0 < b -> Spec.is_ceiling a b (JS.ceil_div a b).
Proof.
  intros Hb. unfold Spec.is_ceiling, JS.ceil_div.
  pose proof (Z.mul_div_le (- a) b Hb) as Hlo.
  pose proof (Z.mul_succ_div_gt (- a) b Hb) as Hhi.
  split; [lia|]. intros k' Hk'. nia.
Qed.

Lemma totalPages_is_ceiling (l : list Product) :
  Spec.is_ceiling (Z.of_nat (length l)) 20 (totalPages l).
Proof. by apply ceil_div_is_ceiling. Qed.

Lemma totalPages_nonneg (l : list Product) : 0 <= totalPages l.
Proof.
  destruct (totalPages_is_ceiling l) as [Hle _].
  destruct (Z.le_gt_cases 0 (totalPages l)); [done | lia].
Qed.

Lemma totalPages_zero (l : list Product) : totalPages l = 0 <-> l = [].
Proof.
  destruct (totalPages_is_ceiling l) as [Hle Hleast]. split.
  - intros E. rewrite E in Hle. destruct l; [done | simpl in Hle; lia].
  - intros ->. reflexivity.
Qed.

(** [totalPages || 1] inside [getPageButtons]: the buttons are those of
    [max 1 totalPages] pages. *)
Lemma getPageButtons_at_least_one (l : list Product) (c : Z) :
  getPageButtons (totalPages l) c = getPageButtons (Z.max 1 (totalPages l)) c.
Proof.
  pose proof (totalPages_nonneg l) as H.
  destruct (decide (totalPages l = 0)) as [->|Hne]; [done|].
  by rewrite Z.max_r by lia.
Qed.

(** C3. The page count is the ceiling of the filtered count over 20, and
    the page buttons use it with a minimum of 1; the Next button compares the
    current page with the unclamped count instead.  When nothing matches, the
    count is 0, a single button for page 1 is rendered, and Next on page 1 is
    not disabled. *)
Theorem next_enabled_when_nothing_matches (st : HomeState) :
  filtered st = [] ->
  currentPage st = 1 ->
  totalPages (filtered st) = 0
  /\ pageButtons st = [PNum 1]
  /\ previousDisabled st = true
  /\ nextDisabled st = false.
Proof.
  intros Hf Hc. unfold pageButtons, previousDisabled, nextDisabled.
  by rewrite Hf, Hc.
Qed.

Lemma next_enabled_when_nothing_matches_witness :
  let st := handleSearch "zzz"
              (fetchProducts
                 (ProductService.Fulfilled [mkProduct "1" "Widget" "W1" "Tools" 3])
                 (initialState ∅)) in
  filtered st = [] /\ currentPage st = 1 /\ nextDisabled st = false.
Proof.
  intros st.
  assert (Hf : filtered st = []) by (vm_compute; reflexivity).
  assert (Hc : currentPage st = 1) by reflexivity.
  split; [exact Hf|]. split; [exact Hc|].
  destruct (next_enabled_when_nothing_matches st Hf Hc) as (_ & _ & _ & H). exact H.
Defined.

(** ** The page buttons *)

Section PageButtons.

Lemma push_loop_enough (fuel : nat) (i hi : Z) (pages : list PageItem) :
  hi - i + 1 <= Z.of_nat fuel ->
  push_loop fuel i hi pages = pages ++ Spec.pages_from_to i hi.
Proof.
  unfold Spec.pages_from_to.
  revert i pages. induction fuel as [|fuel IH]; intros i pages Hfuel; simpl.
  - rewrite seqZ_nil by lia. by rewrite app_nil_r.
  - destruct (Z.leb_spec i hi) as [Hle|Hgt].
    + rewrite IH by lia. rewrite (seqZ_cons i) by lia.
      rewrite <- app_assoc. simpl. do 4 f_equal; lia.
    + rewrite seqZ_nil by lia. by rewrite app_nil_r.
Qed.

(** The loop of [getPageButtons] pushes the pages [lo..hi]. *)
Lemma for_push_pages (lo hi : Z) (pages : list PageItem) :
  for_push lo hi pages = pages ++ Spec.pages_from_to lo hi.
Proof. unfold for_push. apply push_loop_enough. lia. Qed.

Lemma getPageButtons_spec (t c : Z) :
  t <> 0 -> getPageButtons t c = Spec.page_buttons t c.
Proof.
  intros Ht. unfold getPageButtons, Spec.page_buttons, Spec.ellipsis_when, ellipsis.
  destruct (Z.eqb_spec t 0) as [?|_]; [done|].
  destruct (Z.leb_spec t 5) as [Hle|Hgt].
  - rewrite decide_True by done. by rewrite for_push_pages.
  - rewrite decide_False by lia. rewrite for_push_pages.
    destruct (Z.ltb_spec 3 c), (Z.ltb_spec c (t - 2));
      repeat case_bool_decide; try lia; by rewrite <- ?app_assoc.
Qed.

Lemma pages_split (a c b : Z) :
  a <= c <= b ->
  Spec.pages_from_to a b
  = Spec.pages_from_to a (c - 1) ++ PNum c :: Spec.pages_from_to (c + 1) b.
Proof.
  intros H. unfold Spec.pages_from_to.
  replace (b - a + 1) with ((c - a) + (b - c + 1)) by lia.
  rewrite seqZ_app, fmap_app by lia.
  rewrite (seqZ_cons (a + (c - a))) by lia. simpl.
  do 2 f_equal; [f_equal; lia | f_equal; lia | do 2 f_equal; lia].
Qed.

Lemma pages_head (a b : Z) :
  a <= b -> head (Spec.pages_from_to a b) = Some (PNum a).
Proof. intros H. unfold Spec.pages_from_to. by rewrite seqZ_cons by lia. Qed.

Lemma pages_last (a b : Z) :
  a <= b -> last (Spec.pages_from_to a b) = Some (PNum b).
Proof.
  intros H. rewrite (pages_split a b b) by lia.
  unfold Spec.pages_from_to at 2. rewrite seqZ_nil by lia. simpl.
  by rewrite last_snoc.
Qed.

Lemma ellipses_app (l1 l2 : list PageItem) :
  Spec.ellipses (l1 ++ l2) = (Spec.ellipses l1 + Spec.ellipses l2)%nat.
Proof. unfold Spec.ellipses. by rewrite filter_app, length_app. Qed.

Lemma ellipses_cons_page (n : Z) (l : list PageItem) :
  Spec.ellipses (PNum n :: l) = Spec.ellipses l.
Proof. unfold Spec.ellipses. by rewrite filter_cons_False. Qed.

Lemma ellipses_pages (a b : Z) : Spec.ellipses (Spec.pages_from_to a b) = 0%nat.
Proof.
  unfold Spec.pages_from_to. induction (seqZ a (b - a + 1)) as [|n l IH]; [done|].
  simpl. by rewrite ellipses_cons_page.
Qed.

Lemma ellipses_nil : Spec.ellipses [] = 0%nat.
Proof. reflexivity. Qed.

Lemma ellipses_when (b : bool) : (Spec.ellipses (Spec.ellipsis_when b) <= 1)%nat.
Proof. destruct b; unfold Spec.ellipses; simpl; lia. Qed.

End PageButtons.

Ltac count_ellipses :=
  rewrite ?ellipses_app, ?ellipses_pages, ?ellipses_cons_page, ?ellipses_nil; lia.

(** C5. For [t >= 1] pages and a current page [c] in [1..t], the buttons are
    all pages [1..t] when [t <= 5]; otherwise page 1, an ellipsis exactly
    when [c > 3], the pages from [max(2, c-1)] to [min(t-1, c+1)], an
    ellipsis exactly when [c < t-2], and page [t].  The first and the last
    page always appear, and at most one ellipsis stands on each side of the
    current page.  For [t = 3] the buttons are 1 2 3; for [t = 10] they are
    1 2 ... 10 on page 1 and 1 ... 4 5 6 ... 10 on page 5. *)
Theorem getPageButtons_sequence (t c : Z) :
  1 <= t ->
  1 <= c <= t ->
  getPageButtons t c = Spec.page_buttons t c
  /\ head (getPageButtons t c) = Some (PNum 1)
  /\ last (getPageButtons t c) = Some (PNum t)
  /\ (exists before after,
        getPageButtons t c = before ++ PNum c :: after
        /\ (Spec.ellipses before <= 1)%nat
        /\ (Spec.ellipses after <= 1)%nat)
  /\ getPageButtons 3 c = [PNum 1; PNum 2; PNum 3]
  /\ getPageButtons 10 1 = [PNum 1; PNum 2; PStr "..."; PNum 10]
  /\ getPageButtons 10 5
     = [PNum 1; PStr "..."; PNum 4; PNum 5; PNum 6; PStr "..."; PNum 10].
Proof.
  intros Ht Hc.
  rewrite (getPageButtons_spec t c) by lia.
  split; [done|].
  unfold Spec.page_buttons. destruct (decide (t <= 5)) as [Hle|Hgt].
  - (* every page is a button *)
    split; [by apply pages_head|]. split; [by apply pages_last|].
    split; [|done].
    exists (Spec.pages_from_to 1 (c - 1)), (Spec.pages_from_to (c + 1) t).
    split; [by apply pages_split|]. rewrite !ellipses_pages. lia.
  - split; [done|]. split.
    { by rewrite !app_assoc, last_snoc. }
    split; [|done].
    set (E1 := Spec.ellipsis_when (bool_decide (c > 3))).
    set (E2 := Spec.ellipsis_when (bool_decide (c < t - 2))).
    set (a := Z.max 2 (c - 1)). set (b := Z.min (t - 1) (c + 1)).
    pose proof (ellipses_when (bool_decide (c > 3))) as HE1.
    pose proof (ellipses_when (bool_decide (c < t - 2))) as HE2.
    fold E1 in HE1. fold E2 in HE2.
    destruct (decide (c = 1)) as [->|Hc1]; [|destruct (decide (c = t)) as [->|Hct]].
    + (* the current page is the first button *)
      exists [], (E1 ++ Spec.pages_from_to a b ++ E2 ++ [PNum t]).
      split; [done|]. split; [count_ellipses|].
      assert (E1 = []) as -> by (subst E1; by rewrite bool_decide_false by lia).
      count_ellipses.
    + (* the current page is the last button *)
      exists ([PNum 1] ++ E1 ++ Spec.pages_from_to a b ++ E2), [].
      split; [by rewrite <- !app_assoc|]. split; [|count_ellipses].
      assert (E2 = []) as -> by (subst E2; by rewrite bool_decide_false by lia).
      count_ellipses.
    + (* the current page lies in the window *)
      exists ([PNum 1] ++ E1 ++ Spec.pages_from_to a (c - 1)),
             (Spec.pages_from_to (c + 1) b ++ E2 ++ [PNum t]).
      split.
      * rewrite (pages_split a c b) by (subst a b; lia).
        by rewrite <- !app_assoc.
      * split; count_ellipses.
Qed.

Lemma getPageButtons_sequence_witness :
  1 <= 10 /\ 1 <= 8 <= 10
  /\ getPageButtons 10 8 = Spec.page_buttons 10 8.
Proof.
  split; [lia|]. split; [lia|].
  destruct (getPageButtons_sequence 10 8) as [E _]; [lia | lia | exact E].
Defined.

(** ** The stock edit *)

Section UpdateStock.
Variables (st : HomeState) (i : string) (n : Z).

Lemma updateStock_products :
  products (updateStock i n st)
  = JS.map (fun p => if String.eqb (id p) i then with_stock p n else p) (products st).
Proof. reflexivity. Qed.

Lemma updateStock_message :
  successMessage (updateStock i n st)
  = Some (stockMessage (productName (products st) i) n).
Proof. reflexivity. Qed.

Lemma updateStock_timers :
  timers (updateStock i n st) = timers st ++ [mkTimer (now st + 3000)].
Proof. reflexivity. Qed.

Lemma updateStock_now : now (updateStock i n st) = now st.
Proof. reflexivity. Qed.

Lemma updateStock_modal : modalProduct (updateStock i n st) = None.
Proof. reflexivity. Qed.

Lemma updateStock_lookup (k : nat) :
  products (updateStock i n st) !! k
  = (fun p => if String.eqb (id p) i then with_stock p n else p) <$> products st !! k.
Proof. rewrite updateStock_products. apply map_lookup. Qed.

End UpdateStock.

Lemma map_unchanged {A} (f : A -> A) (l : list A) :
  Forall (fun x => f x = x) l -> JS.map f l = l.
Proof. induction 1 as [|x l Hx _ IH]; simpl; [done | by rewrite Hx, IH]. Qed.

(** C6. For every collection and every product id present in it, the edit
    replaces the stock of the product with that id by the new value and keeps
    its id, name, sku and category; every other product is unchanged; the
    collection keeps its length and its order. *)
Theorem updateStock_replaces_stock_only (st : HomeState) (i : string) (n : Z) :
  (exists p, p ∈ products st /\ id p = i) ->
  length (products (updateStock i n st)) = length (products st)
  /\ (forall k p, products st !! k = Some p ->
        exists q, products (updateStock i n st) !! k = Some q
          /\ id q = id p /\ name q = name p /\ sku q = sku p
          /\ category q = category p
          /\ stock q = (if decide (id p = i) then n else stock p)
          /\ (id p <> i -> q = p))
  /\ (exists k q, products (updateStock i n st) !! k = Some q
        /\ id q = i /\ stock q = n).
Proof.
  intros (p0 & Hin & Hid). split; [|split].
  - rewrite updateStock_products. apply map_length.
  - intros k p Hk. rewrite updateStock_lookup, Hk. simpl.
    destruct (String.eqb_spec (id p) i) as [E|E].
    + exists (with_stock p n). rewrite decide_True by done. by repeat split.
    + exists p. rewrite decide_False by done. by repeat split.
  - apply list_elem_of_lookup in Hin as [k Hk].
    exists k, (with_stock p0 n). rewrite updateStock_lookup, Hk. simpl.
    rewrite <- Hid, String.eqb_refl. by repeat split.
Qed.

Lemma updateStock_replaces_stock_only_witness :
  (exists p, p ∈ [mkProduct "1" "Widget" "W1" "Tools" 3; mkProduct "2" "Gadget" "G1" "Toys" 40]
     /\ id p = "1")
  /\ exists k q,
       products
         (updateStock "1" 15
            (fetchProducts
               (ProductService.Fulfilled
                  [mkProduct "1" "Widget" "W1" "Tools" 3; mkProduct "2" "Gadget" "G1" "Toys" 40])
               (initialState ∅))) !! k = Some q
       /\ id q = "1" /\ stock q = 15.
Proof.
  assert (H : exists p,
             p ∈ [mkProduct "1" "Widget" "W1" "Tools" 3; mkProduct "2" "Gadget" "G1" "Toys" 40]
             /\ id p = "1").
  { exists (mkProduct "1" "Widget" "W1" "Tools" 3). split; [apply list_elem_of_here | reflexivity]. }
  split; [exact H|].
  destruct (updateStock_replaces_stock_only
              (fetchProducts
                 (ProductService.Fulfilled
                    [mkProduct "1" "Widget" "W1" "Tools" 3; mkProduct "2" "Gadget" "G1" "Toys" 40])
                 (initialState ∅)) "1" 15 H) as (_ & _ & E).
  exact E.
Defined.

(** C10. With an id that no product carries, the stock update leaves the
    collection as it was, sets the message with the fallback name
    [Product], schedules the clear 3000 ms ahead and closes the modal. *)
Theorem updateStock_unknown_id (st : HomeState) (i : string) (n : Z) :
  (forall p, p ∈ products st -> id p <> i) ->
  products (updateStock i n st) = products st
  /\ successMessage (updateStock i n st)
     = Some ("Stock for " +:+ JS.dquote +:+ "Product" +:+ JS.dquote +:+ " updated to "
               +:+ JS.number_to_string n)
  /\ timers (updateStock i n st) = timers st ++ [mkTimer (now st + 3000)]
  /\ modalProduct (updateStock i n st) = None.
Proof.
  intros Habs. split; [|split; [|done]].
  - rewrite updateStock_products. apply map_unchanged.
    apply Forall_forall. intros p Hp.
    destruct (String.eqb_spec (id p) i) as [E|E]; [|done].
    by destruct (Habs p Hp).
  - rewrite updateStock_message. unfold productName.
    destruct (JS.find _ _) as [p|] eqn:E; [|done].
    apply find_some in E as [Hin Heq]. apply String.eqb_eq in Heq.
    by destruct (Habs p Hin).
Qed.

Lemma updateStock_unknown_id_witness :
  (forall p, p ∈ [mkProduct "1" "Widget" "W1" "Tools" 3] -> id p <> "9")
  /\ products (updateStock "9" 7
                 (fetchProducts
                    (ProductService.Fulfilled [mkProduct "1" "Widget" "W1" "Tools" 3])
                    (initialState ∅)))
     = [mkProduct "1" "Widget" "W1" "Tools" 3].
Proof.
  assert (H : forall p, p ∈ [mkProduct "1" "Widget" "W1" "Tools" 3] -> id p <> "9").
  { intros p Hp. apply list_elem_of_singleton in Hp. subst p. discriminate. }
  split; [exact H|].
  destruct (updateStock_unknown_id
              (fetchProducts
                 (ProductService.Fulfilled [mkProduct "1" "Widget" "W1" "Tools" 3])
                 (initialState ∅)) "9" 7 H) as [E _].
  exact E.
Defined.

(** ** The success message and its timers *)

Section Timers.

(** Once any timer has run there is no message; otherwise it is untouched. *)
Lemma fired_message (fired : list Timer) (st : HomeState) :
  successMessage (fold_left (fun s tm => fire tm s) fired st)
  = match fired with [] => successMessage st | _ :: _ => None end.
Proof.
  revert st. induction fired as [|tm fired IH]; intros st; simpl; [done|].
  rewrite IH. by destruct fired.
Qed.

Lemma filter_none_existsb {A} (pred : A -> bool) (l : list A) :
  existsb pred l = match JS.filter pred l with [] => false | _ :: _ => true end.
Proof.
  induction l as [|x l IH]; simpl; [done|]. by destruct (pred x).
Qed.

(** The message after the clock has reached [t]. *)
Lemma advance_message (t : Z) (st : HomeState) :
  successMessage (advance t st)
  = if existsb (is_due t) (timers st) then None else successMessage st.
Proof.
  unfold advance. simpl. rewrite fired_message, filter_none_existsb.
  by destruct (JS.filter (is_due t) (timers st)).
Qed.

Lemma stockMessage_includes_name (pname : string) (n : Z) :
  JS.includes (stockMessage pname n) pname = true.
Proof.
  apply includes_true. unfold stockMessage.
  exists ("Stock for " +:+ JS.dquote),
         (JS.dquote +:+ " updated to " +:+ JS.number_to_string n).
  by rewrite !app_assoc_s.
Qed.

Lemma stockMessage_includes_value (pname : string) (n : Z) :
  JS.includes (stockMessage pname n) (JS.number_to_string n) = true.
Proof.
  apply includes_true. unfold stockMessage.
  exists ("Stock for " +:+ JS.dquote +:+ pname +:+ JS.dquote +:+ " updated to "), "".
  by rewrite app_empty_r, !app_assoc_s.
Qed.

End Timers.

(** C4, counterexample.  Two edits of the same product 2000 ms apart: the
    timer of the first edit fires 1000 ms after the second edit and clears
    the second message, which is not kept for three seconds. *)
Lemma second_message_cleared_by_first_timer :
  ~ Spec.message_kept_three_seconds
      (advance 2000
         (updateStock "1" 20
            (fetchProducts
               (ProductService.Fulfilled [mkProduct "1" "Widget" "W1" "Tools" 3])
               (initialState ∅))))
      "1" 25.
Proof.
  intros H. specialize (H 3000). vm_compute in H.
  assert (Hrange : 2000 <= 3000 < 5000) by lia.
  specialize (H Hrange). discriminate H.
Qed.

(** C4, as the component behaves.  After an edit of a product of the
    collection, the message names the product and the new stock value, and
    one more timer is pending, due 3000 ms after the edit; no timer is ever
    cancelled.  The message is on screen until the first pending timer fires:
    3000 ms after the edit when no earlier timer is pending, and sooner when
    the timer of an earlier edit is. *)
Theorem updateStock_message_lifetime (st : HomeState) (i : string) (n : Z) (p : Product) :
  JS.find (fun q => String.eqb (id q) i) (products st) = Some p ->
  successMessage (updateStock i n st)
  = Some (stockMessage (productName (products st) i) n)
  /\ JS.includes (stockMessage (productName (products st) i) n) (name p) = true
  /\ JS.includes (stockMessage (productName (products st) i) n) (JS.number_to_string n) = true
  /\ timers (updateStock i n st) = timers st ++ [mkTimer (now st + 3000)]
  /\ (forall t,
        successMessage (advance t (updateStock i n st))
        = if existsb (is_due t) (timers st) || (now st + 3000 <=? t)
          then None
          else Some (stockMessage (productName (products st) i) n))
  /\ (timers st = [] ->
      forall t,
        successMessage (advance t (updateStock i n st))
        = if now st + 3000 <=? t
          then None
          else Some (stockMessage (productName (products st) i) n)).
Proof.
  intros Hfind.
  assert (Hlife : forall t,
            successMessage (advance t (updateStock i n st))
            = if existsb (is_due t) (timers st) || (now st + 3000 <=? t)
              then None
              else Some (stockMessage (productName (products st) i) n)).
  { intros t. rewrite advance_message, updateStock_timers, existsb_app. simpl.
    by rewrite orb_false_r. }
  split; [done|]. split; [|split; [|split; [done|split]]].
  - unfold productName. rewrite Hfind.
    destruct (decide (name p = "")) as [->|_].
    + apply includes_empty.
    + apply stockMessage_includes_name.
  - apply stockMessage_includes_value.
  - exact Hlife.
  - intros Hnone t. rewrite Hlife, Hnone. reflexivity.
Qed.

Lemma updateStock_message_lifetime_witness :
  JS.find (fun q => String.eqb (id q) "1") [mkProduct "1" "Widget" "W1" "Tools" 3]
  = Some (mkProduct "1" "Widget" "W1" "Tools" 3)
  /\ successMessage
       (updateStock "1" 20
          (fetchProducts
             (ProductService.Fulfilled [mkProduct "1" "Widget" "W1" "Tools" 3])
             (initialState ∅)))
     = Some (stockMessage
               (productName
                  (products
                     (fetchProducts
                        (ProductService.Fulfilled [mkProduct "1" "Widget" "W1" "Tools" 3])
                        (initialState ∅))) "1") 20).
Proof.
  split; [reflexivity|].
  destruct (updateStock_message_lifetime
              (fetchProducts
                 (ProductService.Fulfilled [mkProduct "1" "Widget" "W1" "Tools" 3])
                 (initialState ∅)) "1" 20 (mkProduct "1" "Widget" "W1" "Tools" 3))
    as [E _]; [reflexivity | exact E].
Defined.

(** ** Search *)

Lemma getPageButtons_head (t c : Z) :
  1 <= t -> head (getPageButtons t c) = Some (PNum 1).
Proof.
  intros Ht. rewrite getPageButtons_spec by lia. unfold Spec.page_buttons.
  destruct (decide (t <= 5)); [by apply pages_head | done].
Qed.

Lemma first_page_not_empty (l : list Product) :
  l <> [] -> currentProducts l 1 <> [].
Proof.
  intros Hl. unfold currentProducts, productsPerPage.
  rewrite slice_window by lia. by destruct l.
Qed.

(** C8. On every change of the search input, the query state becomes the
    single entry [search := text], or no entry at all when the text is empty,
    and the current page becomes 1: a page that is always rendered among the
    buttons and that shows products whenever any product matches. *)
Theorem handleSearch_sets_query_and_first_page (st : HomeState) (value : string) :
  searchParams (handleSearch value st)
  = (if decide (value = "") then ∅ else {[ "search" := value ]})
  /\ searchParams (handleSearch value st) !! "search"
     = (if decide (value = "") then None else Some value)
  /\ (forall k, k <> "search" -> searchParams (handleSearch value st) !! k = None)
  /\ searchQuery (handleSearch value st) = value
  /\ currentPage (handleSearch value st) = 1
  /\ 1 <= currentPage (handleSearch value st)
       <= Z.max 1 (totalPages (filtered (handleSearch value st)))
  /\ head (pageButtons (handleSearch value st)) = Some (PNum 1)
  /\ (filtered (handleSearch value st) <> [] ->
      currentProducts (filtered (handleSearch value st))
        (currentPage (handleSearch value st)) <> [])
  /\ products (handleSearch value st) = products st.
Proof.
  split; [done|]. split; [|split; [|split; [|split; [done|split; [|split; [|split]]]]]].
  - unfold handleSearch. simpl. destruct (decide (value = "")); [done|].
    apply lookup_singleton_eq.
  - intros k Hk. unfold handleSearch. simpl.
    destruct (decide (value = "")); [done|]. by apply lookup_singleton_ne.
  - unfold searchQuery, handleSearch. simpl.
    destruct (decide (value = "")) as [->|Hne]; [done|].
    rewrite lookup_singleton_eq. by rewrite decide_False.
  - simpl. lia.
  - unfold pageButtons. rewrite getPageButtons_at_least_one.
    apply getPageButtons_head. lia.
  - apply first_page_not_empty.
  - reflexivity.
Qed.

(** ** The product service *)

(** C9. For every id, [getProductById] fulfils — it never rejects — and
    leaves the collection as it was; its value is a product of the collection
    whose id is the argument (the first one in order) whenever there is one,
    and [undefined] exactly when no product has that id. *)
Theorem getProductById_finds_or_undefined (i : string) (store : list Product) :
  exists r,
    ProductService.getProductById i store = (ProductService.Fulfilled r, store)
    /\ match r with
       | Some p =>
           p ∈ store /\ id p = i
           /\ exists before after,
                store = before ++ p :: after /\ Forall (fun q => id q <> i) before
       | None => Forall (fun q => id q <> i) store
       end
    /\ (is_Some r <-> Exists (fun q => id q = i) store).
Proof.
  unfold ProductService.getProductById.
  exists (JS.find (fun product => String.eqb (id product) i) store).
  split; [done|].
  induction store as [|x store IH]; simpl.
  - split; [constructor|]. split; [by intros [? ?] | by intros H; inversion H].
  - destruct (String.eqb_spec (id x) i) as [E|E].
    + split.
      * split; [apply list_elem_of_here|]. split; [done|]. by exists [], store.
      * split; [intros _; by constructor | by eexists].
    + destruct IH as [IH1 IH2].
      destruct (JS.find _ store) as [p|]; split.
      * destruct IH1 as (Hin & Hid & before & after & -> & Hb).
        split; [by apply list_elem_of_further|]. split; [done|].
        exists (x :: before), after. split; [done | by constructor].
      * split; [intros _; apply Exists_cons_tl; by apply IH2 | by eexists].
      * by constructor.
      * split; [by intros [? ?]|]. intros H. apply IH2.
        inversion H; subst; [done | assumption].
Qed.

(** ** The stock form *)

Section StockForm.
Import StockModal.

Lemma is_digit_range (c : ascii) :
  is_digit c = true -> 48 <= Z.of_N (N_of_ascii c) <= 57.
Proof.
  unfold is_digit. rewrite andb_true_iff, !N.leb_le. lia.
Qed.

Lemma digits_value_nonneg (s : string) (acc : Z) :
  all_digits s = true -> 0 <= acc -> 0 <= digits_value acc s.
Proof.
  revert acc. induction s as [|c s IH]; intros acc Hd Hacc; simpl in *; [done|].
  apply andb_true_iff in Hd as [Hc Hs]. apply is_digit_range in Hc.
  apply IH; [done | lia].
Qed.

(** A text that starts with a digit carries no sign. *)
Lemma to_number_digits (s : string) :
  pattern_test s = true -> to_number s = Some (digits_value 0 s).
Proof.
  destruct s as [|c s]; [done|]. intros H. unfold to_number.
  destruct c as [[] [] [] [] [] [] [] []];
    try discriminate H; by rewrite H.
Qed.

Lemma pattern_test_digits (s : string) :
  pattern_test s = true <-> s <> "" /\ all_digits s = true.
Proof. destruct s; simpl; [split; [done | by intros [? _]] | by split; [|intros [_ ?]]]. Qed.

End StockForm.

(** C7. The stock field carries three rules with three different messages.
    The text [-1] is rejected by the minimum rule and by the digits-only
    pattern rule, each taken on its own; the empty text is rejected by the
    required rule; a text of one or more digits passes the three rules, and
    the form hands it to its submit callback. *)
Theorem stock_form_rules (value : string) :
  value <> "" ->
  StockModal.all_digits value = true ->
  (StockModal.message StockModal.Required <> StockModal.message StockModal.Min
   /\ StockModal.message StockModal.Required <> StockModal.message StockModal.Pattern
   /\ StockModal.message StockModal.Min <> StockModal.message StockModal.Pattern)
  /\ StockModal.rejects StockModal.Min "-1" = Some true
  /\ StockModal.rejects StockModal.Pattern "-1" = Some true
  /\ StockModal.rejects StockModal.Required "" = Some true
  /\ (forall r, StockModal.rejects r value = Some false)
  /\ (forall (A : Type) (submit : string -> A),
        StockModal.handleSubmit submit value = Some (Some (submit value))
        /\ StockModal.handleSubmit submit "-1" = Some None
        /\ StockModal.handleSubmit submit "" = Some None).
Proof.
  intros Hne Hd.
  assert (Hp : StockModal.pattern_test value = true) by by apply pattern_test_digits.
  assert (Hr : forall r, StockModal.rejects r value = Some false).
  { intros [] ; simpl.
    - by rewrite bool_decide_false.
    - rewrite decide_False by done. rewrite to_number_digits by done. simpl.
      pose proof (digits_value_nonneg value 0 Hd ltac:(lia)) as Hv.
      unfold StockModal.min_value. by destruct (Z.ltb_spec (StockModal.digits_value 0 value) 0); [lia|].
    - rewrite decide_False by done. by rewrite Hp. }
  split; [by repeat split|]. do 3 (split; [reflexivity|]).
  split; [exact Hr|]. intros A submit. split; [|by split].
  unfold StockModal.handleSubmit, StockModal.blocked, StockModal.cleared,
    StockModal.rules.
  cbn [existsb forallb]. by rewrite !Hr.
Qed.

Lemma stock_form_rules_witness :
  "15" <> "" /\ StockModal.all_digits "15" = true
  /\ forall r, StockModal.rejects r "15" = Some false.
Proof.
  assert (H1 : "15" <> "") by discriminate.
  assert (H2 : StockModal.all_digits "15" = true) by reflexivity.
  split; [exact H1|]. split; [exact H2|].
  destruct (stock_form_rules "15" H1 H2) as (_ & _ & _ & _ & E & _). exact E.
Defined.

(** ** A worked scenario

    One product, Widget with stock 3; the search text is [wid]; the stock is
    then edited to 20. *)

Example scenario_filtered : filtered Scenario.loaded = [Scenario.widget].
Proof. vm_compute. reflexivity. Qed.

Example scenario_low_stock : lowStockCount (filtered Scenario.loaded) = 1.
Proof. vm_compute. reflexivity. Qed.

Example scenario_upper_case_query :
  filteredProducts [Scenario.widget] "IDG" = [Scenario.widget]
  /\ filteredProducts [Scenario.widget] "dig" = [].
Proof. vm_compute. by split. Qed.

Example scenario_edit :
  products (updateStock "1" 20 (openModal Scenario.widget Scenario.loaded))
  = [mkProduct "1" "Widget" "W1" "Tools" 20]
  /\ modalProduct (updateStock "1" 20 (openModal Scenario.widget Scenario.loaded)) = None
  /\ successMessage (updateStock "1" 20 (openModal Scenario.widget Scenario.loaded))
     = Some ("Stock for " +:+ JS.dquote +:+ "Widget" +:+ JS.dquote +:+ " updated to 20").
Proof. vm_compute. by repeat split. Qed.

Example scenario_pages :
  totalPages (filtered Scenario.loaded) = 1
  /\ pageButtons Scenario.loaded = [PNum 1]
  /\ nextDisabled Scenario.loaded = true.
Proof. vm_compute. by repeat split. Qed.

(** * Further properties of the component *)

(** ** Counters *)

Lemma filter_length_split {A} (pred : A -> bool) (l : list A) :
  (length (JS.filter pred l) + length (JS.filter (fun x => negb (pred x)) l))%nat
  = length l.
Proof.
  induction l as [|x l IH]; simpl; [done|]. destruct (pred x); simpl; lia.
Qed.

(** X1. The Low Stock and In Stock counters split the Total counter: the
    first counts the filtered products with stock below 10, the second is
    exactly the number of filtered products with stock 10 or more, and
    neither is negative. *)
Theorem stock_counters_partition (l : list Product) :
  inStockCount l = Z.of_nat (length (JS.filter (fun p => 10 <=? stock p) l))
  /\ lowStockCount l + inStockCount l = Z.of_nat (length l)
  /\ 0 <= lowStockCount l <= Z.of_nat (length l)
  /\ 0 <= inStockCount l <= Z.of_nat (length l).
Proof.
  assert (E : JS.filter (fun p => 10 <=? stock p) l
              = JS.filter (fun p => negb (stock p <? 10)) l).
  { induction l as [|x l IH]; simpl; [done|].
    rewrite IH. by rewrite (Z.leb_antisym (stock x) 10). }
  pose proof (filter_length_split (fun p => stock p <? 10) l) as H.
  cbv beta in H. unfold inStockCount, lowStockCount. rewrite E. lia.
Qed.

(** ** Narrowing the search *)

Lemma filter_refine {A} (p q : A -> bool) (l : list A) :
  (forall x, p x = true -> q x = true) ->
  JS.filter p l = JS.filter p (JS.filter q l).
Proof.
  intros Himp. induction l as [|x l IH]; simpl; [done|].
  destruct (p x) eqn:Ep.
  - rewrite (Himp x Ep). simpl. by rewrite Ep, IH.
  - destruct (q x); simpl; by rewrite ?Ep, IH.
Qed.

Lemma filter_length_le {A} (p : A -> bool) (l : list A) :
  (length (JS.filter p l) <= length l)%nat.
Proof. induction l as [|x l IH]; simpl; [done|]. destruct (p x); simpl; lia. Qed.

Lemma filter_elem {A} (p : A -> bool) (l : list A) (x : A) :
  x ∈ JS.filter p l <-> x ∈ l /\ p x = true.
Proof.
  induction l as [|y l IH]; simpl.
  - split; [by intros ?%elem_of_nil | by intros [?%elem_of_nil _]].
  - destruct (p y) eqn:E.
    + rewrite !elem_of_cons, IH.
      split; [intros [->|[? ?]]; auto | intros [[->|?] ?]; auto].
    + rewrite IH, elem_of_cons.
      split; [intros [? ?]; auto | intros [[->|?] ?]; [congruence | auto]].
Qed.

Lemma contains_trans (text s' s : string) :
  Spec.contains_ignoring_case text s' -> Spec.contains_ignoring_case s' s ->
  Spec.contains_ignoring_case text s.
Proof.
  rewrite <- !includes_lower_spec, !includes_true.
  intros (a & b & ->) (c & d & ->).
  exists (a +:+ c), (d +:+ b). by rewrite !app_assoc_s.
Qed.

(** X2. On names and texts of the code units 0..255 (Basic Latin and
    Latin-1), a longer search text narrows the result: when the text [s']
    contains [s] up to case (as it does after more characters are typed), the
    result for [s'] is the result for [s] filtered again, so it is a sublist
    of it and can only be shorter. *)
Theorem filteredProducts_narrows (ps : list Product) (s s' : string) :
  Spec.contains_ignoring_case s' s ->
  filteredProducts ps s' = filteredProducts (filteredProducts ps s) s'
  /\ filteredProducts ps s' `sublist_of` filteredProducts ps s
  /\ (length (filteredProducts ps s') <= length (filteredProducts ps s))%nat.
Proof.
  intros Hs.
  assert (E : filteredProducts ps s' = filteredProducts (filteredProducts ps s) s').
  { apply filter_refine. intros p Hp.
    apply includes_lower_spec. apply includes_lower_spec in Hp.
    by apply (contains_trans _ s'). }
  split; [exact E|]. rewrite E. split; [|apply filter_length_le].
  generalize (filteredProducts ps s). intros l. unfold filteredProducts.
  induction l as [|x l IH]; simpl; [done|].
  destruct (JS.includes _ _); [by apply sublist_skip | by apply sublist_cons].
Qed.

Lemma filteredProducts_narrows_witness :
  Spec.contains_ignoring_case "Wid" "wi"
  /\ filteredProducts [Scenario.widget] "Wid"
     = filteredProducts (filteredProducts [Scenario.widget] "wi") "Wid".
Proof.
  assert (H : Spec.contains_ignoring_case "Wid" "wi").
  { exists "", "Wi", "d". split; [reflexivity|]. by repeat constructor. }
  split; [exact H|].
  destruct (filteredProducts_narrows [Scenario.widget] "wi" "Wid" H) as [E _]. exact E.
Defined.

(** X3. On names and texts of the code units 0..255 (Basic Latin and
    Latin-1), the case of the search text does not matter: two texts that
    are, unit by unit, the same letters up to case select the same
    products. *)
Theorem filteredProducts_query_case (ps : list Product) (s s' : string) :
  Spec.same_ignoring_case s s' ->
  filteredProducts ps s = filteredProducts ps s'.
Proof.
  intros H. apply same_ignoring_case_lower in H.
  unfold filteredProducts. by rewrite H.
Qed.

Lemma filteredProducts_query_case_witness :
  Spec.same_ignoring_case "WID" "wid"
  /\ filteredProducts [Scenario.widget] "WID" = filteredProducts [Scenario.widget] "wid".
Proof.
  assert (H : Spec.same_ignoring_case "WID" "wid") by by repeat constructor.
  split; [exact H | exact (filteredProducts_query_case [Scenario.widget] "WID" "wid" H)].
Defined.

(** ** Pages *)

Lemma currentProducts_window (l : list Product) (p : Z) :
  1 <= p -> currentProducts l p = take 20 (drop (Z.to_nat ((p - 1) * 20)) l).
Proof.
  intros Hp. unfold currentProducts, productsPerPage.
  rewrite slice_window by lia. do 2 f_equal. lia.
Qed.

Lemma totalPages_bounds (l : list Product) :
  l <> [] ->
  (totalPages l - 1) * 20 < Z.of_nat (length l) <= totalPages l * 20.
Proof.
  intros Hl. destruct (totalPages_is_ceiling l) as [Hle Hleast].
  split; [|done].
  destruct (Z.le_gt_cases (Z.of_nat (length l)) ((totalPages l - 1) * 20)) as [H|H]; [|done].
  specialize (Hleast _ H). lia.
Qed.

Lemma currentProducts_length (l : list Product) (p : Z) :
  1 <= p ->
  Z.of_nat (length (currentProducts l p))
  = Z.max 0 (Z.min 20 (Z.of_nat (length l) - (p - 1) * 20)).
Proof.
  intros Hp. rewrite currentProducts_window by done.
  rewrite length_take, length_drop. lia.
Qed.

(** X4. Page sizes.  For a page [p >= 1]: every page before the last one
    holds exactly 20 products, the last page (page [totalPages]) holds
    between 1 and 20, and a page past the last one is empty. *)
Theorem currentProducts_page_sizes (l : list Product) (p : Z) :
  1 <= p ->
  (p < totalPages l -> length (currentProducts l p) = 20%nat)
  /\ (p = totalPages l -> (1 <= length (currentProducts l p) <= 20)%nat)
  /\ (totalPages l < p -> currentProducts l p = []).
Proof.
  intros Hp. pose proof (currentProducts_length l p Hp) as Hlen.
  destruct (decide (l = [])) as [->|Hl].
  - change (totalPages []) with 0. simpl in Hlen.
    split; [lia|]. split; [lia|]. intros _. apply length_zero_iff_nil. lia.
  - pose proof (totalPages_bounds l Hl) as Hb.
    split; [lia|]. split; [lia|]. intros Hgt. apply length_zero_iff_nil. lia.
Qed.

Lemma currentProducts_page_sizes_witness :
  1 <= 1
  /\ (1 = totalPages [Scenario.widget] ->
      (1 <= length (currentProducts [Scenario.widget] 1) <= 20)%nat).
Proof.
  split; [lia|].
  destruct (currentProducts_page_sizes [Scenario.widget] 1) as (_ & E & _); [lia | exact E].
Defined.

Lemma pages_prefix (l : list Product) (n : nat) :
  concat (currentProducts l <$> seqZ 1 (Z.of_nat n)) = take (20 * n) l.
Proof.
  induction n as [|n IH]; [done|].
  rewrite seqZ_S, fmap_app, concat_app, IH. simpl. rewrite app_nil_r.
  rewrite currentProducts_window by lia.
  replace (Z.to_nat ((1 + Z.of_nat n - 1) * 20)) with (20 * n)%nat by lia.
  rewrite take_take_drop. f_equal. lia.
Qed.

(** X5. The pages [1..totalPages], one after the other, are the filtered
    list: paging loses no product, repeats none and keeps the order. *)
Theorem pages_concat (l : list Product) :
  concat (currentProducts l <$> seqZ 1 (totalPages l)) = l.
Proof.
  pose proof (totalPages_nonneg l) as Hnn.
  destruct (totalPages_is_ceiling l) as [Hle _].
  rewrite <- (Z2Nat.id (totalPages l)) by done.
  rewrite pages_prefix. apply take_ge. lia.
Qed.

(** X6. The product at index [k] of the filtered list is shown on page
    [k / 20 + 1], at row [k mod 20], and that page is one of the pages
    [1..totalPages]. *)
Theorem product_page_location (l : list Product) (k : nat) (x : Product) :
  l !! k = Some x ->
  currentProducts l (Z.of_nat k / 20 + 1) !! Z.to_nat (Z.of_nat k mod 20) = Some x
  /\ 1 <= Z.of_nat k / 20 + 1 <= totalPages l.
Proof.
  intros Hk.
  pose proof (Z.div_mod (Z.of_nat k) 20 ltac:(lia)) as Hdm.
  pose proof (Z.mod_pos_bound (Z.of_nat k) 20 ltac:(lia)) as Hmod.
  pose proof (Z.div_pos (Z.of_nat k) 20 ltac:(lia) ltac:(lia)) as Hdiv.
  split.
  - rewrite currentProducts_window by lia.
    rewrite lookup_take_lt by lia. rewrite lookup_drop, <- Hk. f_equal. lia.
  - apply lookup_lt_Some in Hk.
    assert (Hl : l <> []) by (intros ->; simpl in Hk; lia).
    pose proof (totalPages_bounds l Hl) as Hb. lia.
Qed.

Lemma product_page_location_witness :
  [Scenario.widget] !! 0%nat = Some Scenario.widget
  /\ 1 <= Z.of_nat 0 / 20 + 1 <= totalPages [Scenario.widget].
Proof.
  split; [reflexivity|].
  destruct (product_page_location [Scenario.widget] 0 Scenario.widget) as [_ E];
    [reflexivity | exact E].
Defined.

(** ** More on the page buttons *)

Section ButtonNumbers.

Lemma seqZ_sorted_nat (k : nat) (m : Z) : StronglySorted Z.lt (seqZ m (Z.of_nat k)).
Proof.
  revert m. induction k as [|k IH]; intros m; [constructor|].
  rewrite seqZ_cons by lia.
  replace (Z.pred (Z.of_nat (S k))) with (Z.of_nat k) by lia.
  constructor; [apply IH|].
  apply Forall_forall. intros x Hx. apply elem_of_seqZ in Hx. lia.
Qed.

Lemma seqZ_sorted (m n : Z) : StronglySorted Z.lt (seqZ m n).
Proof.
  destruct (Z.le_gt_cases n 0) as [H|H].
  - rewrite seqZ_nil by done. constructor.
  - rewrite <- (Z2Nat.id n) by lia. apply seqZ_sorted_nat.
Qed.

Lemma page_numbers_pages (a b : Z) :
  page_numbers (Spec.pages_from_to a b) = seqZ a (b - a + 1).
Proof.
  unfold page_numbers, Spec.pages_from_to.
  induction (seqZ a (b - a + 1)) as [|n l IH]; [done|]. csimpl. by f_equal.
Qed.

Lemma page_numbers_ellipsis_when (b : bool) :
  page_numbers (Spec.ellipsis_when b) = [].
Proof. by destruct b. Qed.

(** The numbers on the buttons: first page, window, last page. *)
Lemma page_numbers_buttons (t c : Z) :
  1 <= t ->
  page_numbers (getPageButtons t c)
  = if decide (t <= 5) then seqZ 1 t
    else 1 :: seqZ (Z.max 2 (c - 1))
                (Z.min (t - 1) (c + 1) - Z.max 2 (c - 1) + 1) ++ [t].
Proof.
  intros Ht. rewrite getPageButtons_spec by lia. unfold Spec.page_buttons.
  destruct (decide (t <= 5)).
  - rewrite page_numbers_pages. f_equal. lia.
  - unfold page_numbers. rewrite !omap_app. fold page_numbers.
    by rewrite !page_numbers_ellipsis_when, page_numbers_pages.
Qed.

Lemma page_numbers_sorted (t c : Z) :
  1 <= t -> StronglySorted Z.lt (page_numbers (getPageButtons t c)).
Proof.
  intros Ht. rewrite page_numbers_buttons by done.
  destruct (decide (t <= 5)); [apply seqZ_sorted|].
  constructor.
  - apply StronglySorted_app_2; [|apply seqZ_sorted|repeat constructor].
    intros x y Hx Hy. apply elem_of_seqZ in Hx.
    apply list_elem_of_singleton in Hy. lia.
  - apply Forall_forall. intros x Hx. apply elem_of_app in Hx as [Hx|Hx].
    + apply elem_of_seqZ in Hx. lia.
    + apply list_elem_of_singleton in Hx. lia.
Qed.

Lemma page_numbers_elem (t c n : Z) :
  1 <= t ->
  n ∈ page_numbers (getPageButtons t c)
  <-> 1 <= n <= t
      /\ (t <= 5 \/ n = 1 \/ n = t \/ c - 1 <= n <= c + 1).
Proof.
  intros Ht. rewrite page_numbers_buttons by done.
  destruct (decide (t <= 5)).
  - rewrite elem_of_seqZ. lia.
  - rewrite elem_of_cons, elem_of_app, elem_of_seqZ, list_elem_of_singleton. lia.
Qed.

Lemma active_count (items : list PageItem) (c : Z) :
  length (base.filter (fun item => isActive c item = true) items)
  = length (base.filter (fun n => n = c) (page_numbers items)).
Proof.
  induction items as [|[n|s] items IH]; [done| |].
  - simpl page_numbers. rewrite !filter_cons. simpl isActive.
    destruct (Z.eqb_spec c n) as [->|Hne].
    + rewrite !decide_True by done. simpl. by rewrite IH.
    + rewrite !decide_False by (done || congruence). exact IH.
  - rewrite filter_cons. simpl. exact IH.
Qed.

Lemma sorted_count (l : list Z) (c : Z) :
  StronglySorted Z.lt l ->
  length (base.filter (fun n => n = c) l) = if decide (c ∈ l) then 1%nat else 0%nat.
Proof.
  induction 1 as [|x l Hs IH Hall]; [done|].
  rewrite filter_cons. destruct (decide (x = c)) as [->|Hne].
  - rewrite decide_True by apply list_elem_of_here. simpl. rewrite IH.
    rewrite decide_False; [done|].
    intros Hin. rewrite Forall_forall in Hall. specialize (Hall _ Hin). lia.
  - rewrite IH. destruct (decide (c ∈ l)) as [Hin|Hnin].
    + rewrite decide_True; [done | by apply list_elem_of_further].
    + rewrite decide_False; [done|]. rewrite elem_of_cons. intros [->|?]; done.
Qed.

End ButtonNumbers.

(** X7. Whatever the current page is, the page buttons carry only pages of
    [1..max(1, totalPages)], in strictly increasing order (so no page twice),
    every other entry is the ellipsis, and there are never more than 7
    entries. *)
Theorem pageButtons_shape (l : list Product) (c : Z) :
  Forall (fun item =>
            match item with
            | PNum n => 1 <= n <= Z.max 1 (totalPages l)
            | PStr s => s = "..."
            end) (getPageButtons (totalPages l) c)
  /\ StronglySorted Z.lt (page_numbers (getPageButtons (totalPages l) c))
  /\ (length (getPageButtons (totalPages l) c) <= 7)%nat.
Proof.
  pose proof (totalPages_nonneg l) as Hnn.
  rewrite getPageButtons_at_least_one.
  set (t := Z.max 1 (totalPages l)). assert (Ht : 1 <= t) by lia. clearbody t.
  split; [|split; [by apply page_numbers_sorted|]].
  - apply Forall_forall. intros [n|s] Hin.
    + assert (Hn : n ∈ page_numbers (getPageButtons t c)).
      { unfold page_numbers. apply list_elem_of_omap. by exists (PNum n). }
      apply page_numbers_elem in Hn; [lia | done].
    + rewrite getPageButtons_spec in Hin by lia. unfold Spec.page_buttons in Hin.
      assert (Hp : forall a b, PStr s ∈ Spec.pages_from_to a b -> s = "...").
      { intros a b H. unfold Spec.pages_from_to in H.
        apply list_elem_of_fmap in H as (? & ? & _). discriminate. }
      assert (He : forall b, PStr s ∈ Spec.ellipsis_when b -> s = "...").
      { intros [] H; simpl in H; [|by apply elem_of_nil in H].
        apply list_elem_of_singleton in H. by injection H. }
      destruct (decide (t <= 5)); [by eapply Hp|].
      rewrite !elem_of_app, !list_elem_of_singleton in Hin.
      destruct Hin as [?|[?|[?|[?|?]]]]; try discriminate; eauto.
  - rewrite getPageButtons_spec by lia. unfold Spec.page_buttons, Spec.pages_from_to.
    destruct (decide (t <= 5)).
    + rewrite length_fmap, length_seqZ. lia.
    + rewrite !length_app, length_fmap, length_seqZ.
      assert (forall b, (length (Spec.ellipsis_when b) <= 1)%nat) as He
        by (intros []; simpl; lia).
      pose proof (He (bool_decide (c > 3))).
      pose proof (He (bool_decide (c < t - 2))). simpl. lia.
Qed.

(** X8. Exactly one page button is marked active when the current page is
    one of the pages [1..max(1, totalPages)], and none is when it is not. *)
Theorem active_button_count (l : list Product) (c : Z) :
  length (base.filter (fun item => isActive c item = true)
            (getPageButtons (totalPages l) c))
  = if decide (1 <= c <= Z.max 1 (totalPages l)) then 1%nat else 0%nat.
Proof.
  pose proof (totalPages_nonneg l) as Hnn.
  rewrite getPageButtons_at_least_one.
  set (t := Z.max 1 (totalPages l)). assert (Ht : 1 <= t) by lia. clearbody t.
  rewrite active_count, sorted_count by by apply page_numbers_sorted.
  destruct (decide (1 <= c <= t)) as [Hin|Hout].
  - rewrite decide_True; [done|]. apply page_numbers_elem; [done | lia].
  - rewrite decide_False; [done|]. rewrite page_numbers_elem by done. lia.
Qed.

(** ** More on the stock edit *)

Lemma filter_map_commute {A} (pred : A -> bool) (f : A -> A) (l : list A) :
  (forall x, pred (f x) = pred x) ->
  JS.filter pred (JS.map f l) = JS.map f (JS.filter pred l).
Proof.
  intros Hf. induction l as [|x l IH]; simpl; [done|].
  rewrite Hf. destruct (pred x); simpl; by rewrite IH.
Qed.

Lemma updateStock_filtered (st : HomeState) (i : string) (n : Z) :
  filtered (updateStock i n st)
  = JS.map (fun p => if String.eqb (id p) i then with_stock p n else p) (filtered st).
Proof.
  unfold filtered, filteredProducts. rewrite updateStock_products.
  change (searchQuery (updateStock i n st)) with (searchQuery st).
  apply filter_map_commute. intros p. by destruct (String.eqb (id p) i).
Qed.

(** X9. A stock edit does not disturb what is on screen: the filtered list
    after the edit is the filtered list before it with the same edit applied,
    so the same products match, in the same rows; the page count, the current
    page, the page buttons and the search text are as before. *)
Theorem updateStock_keeps_view (st : HomeState) (i : string) (n : Z) :
  filtered (updateStock i n st)
  = JS.map (fun p => if String.eqb (id p) i then with_stock p n else p) (filtered st)
  /\ id <$> filtered (updateStock i n st) = id <$> filtered st
  /\ totalPages (filtered (updateStock i n st)) = totalPages (filtered st)
  /\ currentPage (updateStock i n st) = currentPage st
  /\ pageButtons (updateStock i n st) = pageButtons st
  /\ searchQuery (updateStock i n st) = searchQuery st.
Proof.
  pose proof (updateStock_filtered st i n) as E.
  assert (Ht : totalPages (filtered (updateStock i n st)) = totalPages (filtered st)).
  { unfold totalPages. by rewrite E, map_length. }
  split; [exact E|]. split; [|split; [exact Ht|split; [done|split; [|done]]]].
  - rewrite E, map_fmap, <- list_fmap_compose. apply list_fmap_ext.
    intros _ p _. simpl. by destruct (String.eqb (id p) i).
  - unfold pageButtons. by rewrite Ht.
Qed.

Lemma map_map {A} (f g : A -> A) (l : list A) :
  JS.map g (JS.map f l) = JS.map (fun x => g (f x)) l.
Proof. induction l as [|x l IH]; simpl; [done | by rewrite IH]. Qed.

Lemma map_ext {A} (f g : A -> A) (l : list A) :
  (forall x, f x = g x) -> JS.map f l = JS.map g l.
Proof. intros H. induction l as [|x l IH]; simpl; [done | by rewrite H, IH]. Qed.

(** X10. The last edit of a product wins: editing the stock of the same id
    twice leaves the collection exactly as the second edit alone does, and
    edits of two different ids can be made in either order. *)
Theorem updateStock_last_wins (st : HomeState) (i j : string) (n m : Z) :
  products (updateStock i m (updateStock i n st)) = products (updateStock i m st)
  /\ (i <> j ->
      products (updateStock j m (updateStock i n st))
      = products (updateStock i n (updateStock j m st))).
Proof.
  rewrite !updateStock_products, !map_map. split.
  - apply map_ext. intros p. destruct (String.eqb_spec (id p) i) as [E|E]; simpl.
    + by rewrite E, String.eqb_refl.
    + by destruct (String.eqb_spec (id p) i).
  - intros Hij. apply map_ext. intros p.
    destruct (String.eqb_spec (id p) i) as [Ei|Ei],
             (String.eqb_spec (id p) j) as [Ej|Ej]; simpl.
    + congruence.
    + destruct (String.eqb_spec (id p) j); [done|].
      by destruct (String.eqb_spec (id p) i).
    + destruct (String.eqb_spec (id p) i); [done|].
      by destruct (String.eqb_spec (id p) j).
    + destruct (String.eqb_spec (id p) i); [done|].
      by destruct (String.eqb_spec (id p) j).
Qed.

(** ** More on the product service *)

(** X11. In a collection whose ids are all different, looking up the id of
    any product of the collection returns that very product. *)
Theorem getProductById_roundtrip (store : list Product) (p : Product) :
  NoDup (id <$> store) ->
  p ∈ store ->
  ProductService.getProductById (id p) store
  = (ProductService.Fulfilled (Some p), store).
Proof.
  intros Hnd Hin. unfold ProductService.getProductById. do 2 f_equal.
  induction store as [|x store IH]; [by apply elem_of_nil in Hin|].
  simpl. rewrite fmap_cons in Hnd. apply NoDup_cons in Hnd as [Hx Hnd].
  apply elem_of_cons in Hin as [->|Hin].
  - by rewrite String.eqb_refl.
  - destruct (String.eqb_spec (id x) (id p)) as [E|E]; [|by apply IH].
    destruct Hx. rewrite E. by apply list_elem_of_fmap_2.
Qed.

Lemma getProductById_roundtrip_witness :
  NoDup (id <$> [Scenario.widget; mkProduct "2" "Gadget" "G1" "Toys" 40])
  /\ mkProduct "2" "Gadget" "G1" "Toys" 40
     ∈ [Scenario.widget; mkProduct "2" "Gadget" "G1" "Toys" 40]
  /\ ProductService.getProductById (id (mkProduct "2" "Gadget" "G1" "Toys" 40))
       [Scenario.widget; mkProduct "2" "Gadget" "G1" "Toys" 40]
     = (ProductService.Fulfilled (Some (mkProduct "2" "Gadget" "G1" "Toys" 40)),
        [Scenario.widget; mkProduct "2" "Gadget" "G1" "Toys" 40]).
Proof.
  assert (H1 : NoDup (id <$> [Scenario.widget; mkProduct "2" "Gadget" "G1" "Toys" 40])).
  { simpl. apply NoDup_cons. split; [|apply NoDup_singleton].
    rewrite list_elem_of_singleton. discriminate. }
  assert (H2 : mkProduct "2" "Gadget" "G1" "Toys" 40
               ∈ [Scenario.widget; mkProduct "2" "Gadget" "G1" "Toys" 40]).
  { apply list_elem_of_further, list_elem_of_here. }
  split; [exact H1|]. split; [exact H2|].
  exact (getProductById_roundtrip _ _ H1 H2).
Defined.

(** ** Runs of the view *)

Section Runs.

Lemma slice_elem {A} (l : list A) (a b : Z) (x : A) : x ∈ JS.slice l a b -> x ∈ l.
Proof.
  unfold JS.slice. intros H.
  eapply elem_of_sublist; [exact H|].
  etrans; [apply sublist_take | apply sublist_drop].
Qed.

Lemma row_in_products (st : HomeState) (k : nat) (p : Product) :
  currentProducts (filtered st) (currentPage st) !! k = Some p -> p ∈ products st.
Proof.
  intros H. apply list_elem_of_lookup_2 in H. apply slice_elem in H.
  unfold filtered, filteredProducts in H. by apply filter_elem in H as [H _].
Qed.

Lemma button_page_range (st : HomeState) (k : nat) (n : Z) :
  pageButtons st !! k = Some (PNum n) ->
  1 <= n <= Z.max 1 (totalPages (filtered st)).
Proof.
  intros H. unfold pageButtons in H. rewrite getPageButtons_at_least_one in H.
  pose proof (totalPages_nonneg (filtered st)) as Hnn.
  assert (Hn : n ∈ page_numbers
                 (getPageButtons (Z.max 1 (totalPages (filtered st))) (currentPage st))).
  { unfold page_numbers. apply list_elem_of_omap. exists (PNum n).
    split; [by eapply list_elem_of_lookup_2 | done]. }
  apply page_numbers_elem in Hn; lia.
Qed.

Lemma updateStock_elem (st : HomeState) (i : string) (n : Z) (p : Product) :
  p ∈ products st ->
  exists q, q ∈ products (updateStock i n st) /\ id q = id p.
Proof.
  intros Hin. apply list_elem_of_lookup in Hin as [k Hk].
  exists (if String.eqb (id p) i then with_stock p n else p). split.
  - apply list_elem_of_lookup. exists k. by rewrite updateStock_lookup, Hk.
  - by destruct (String.eqb (id p) i).
Qed.

(** Timers that are not due stay; the message goes with the first due one. *)
Lemma advance_timers (t : Z) (st : HomeState) :
  timers (advance t st) = JS.filter (fun tm => negb (is_due t tm)) (timers st).
Proof. reflexivity. Qed.

Lemma fired_frame (fired : list Timer) (st : HomeState) :
  let st' := fold_left (fun s tm => fire tm s) fired st in
  products st' = products st /\ loading st' = loading st /\ error st' = error st
  /\ currentPage st' = currentPage st /\ modalProduct st' = modalProduct st
  /\ searchParams st' = searchParams st /\ now st' = now st.
Proof.
  revert st. induction fired as [|tm fired IH]; intros st; simpl; [done|].
  apply (IH (fire tm st)).
Qed.

(** The clock moves nothing but the message, the time and the timers. *)
Lemma advance_frame (t : Z) (st : HomeState) :
  products (advance t st) = products st /\ loading (advance t st) = loading st
  /\ error (advance t st) = error st
  /\ currentPage (advance t st) = currentPage st
  /\ modalProduct (advance t st) = modalProduct st
  /\ searchParams (advance t st) = searchParams st
  /\ now (advance t st) = Z.max t (now st).
Proof.
  destruct (fired_frame (JS.filter (is_due t) (timers st)) st)
    as (H1 & H2 & H3 & H4 & H5 & H6 & H7).
  unfold advance. simpl. by rewrite H1, H2, H3, H4, H5, H6, H7.
Qed.

Lemma filter_none_due (t : Z) (l : list Timer) :
  existsb (is_due t) l = false ->
  JS.filter (fun tm => negb (is_due t tm)) l = l.
Proof.
  induction l as [|tm l IH]; simpl; [done|].
  destruct (is_due t tm); simpl; [done|]. intros H. by rewrite IH.
Qed.

Lemma filter_Forall {A} (P : A -> Prop) (pred : A -> bool) (l : list A) :
  Forall P l -> Forall P (JS.filter pred l).
Proof.
  induction 1 as [|x l Hx _ IH]; simpl; [constructor|].
  destruct (pred x); [by constructor | done].
Qed.

Lemma invariant_initial (query : gmap string string) : invariant (initialState query).
Proof.
  unfold invariant. simpl. split; [lia|]. split; [done|].
  split; [done|]. split; [by left | constructor].
Qed.

Lemma invariant_step (e : Event) (st : HomeState) :
  invariant st -> invariant (step e st).
Proof.
  intros Hinv. pose proof Hinv as (Hpage & Hload & Hmodal & Hmsg & Hdue).
  destruct e as [outcome|value| | |k|k|newStock| |t]; simpl.
  - (* Settle *)
    destruct (loading st) eqn:El; [|exact Hinv].
    destruct (Hload eq_refl) as [Hps Hm].
    destruct outcome; unfold invariant; simpl; rewrite ?Hm;
      (split; [exact Hpage|]); (split; [intros ?; discriminate|]);
      (split; [intros m ?; discriminate|]); by split.
  - (* Search *)
    unfold invariant. simpl. split; [lia|]. by split.
  - (* Previous *)
    unfold paginationShown, previousDisabled.
    destruct (loading st) eqn:El; simpl; [exact Hinv|].
    destruct (Z.eqb_spec (currentPage st) 1); simpl; [exact Hinv|].
    unfold invariant. simpl. rewrite El. split; [lia|]. by split.
  - (* Next *)
    unfold paginationShown.
    destruct (loading st) eqn:El; simpl; [exact Hinv|].
    destruct (nextDisabled st); simpl; [exact Hinv|].
    unfold invariant. simpl. rewrite El. split; [lia|]. by split.
  - (* PageButton *)
    unfold paginationShown.
    destruct (loading st) eqn:El; simpl; [exact Hinv|].
    destruct (pageButtons st !! k) as [[n|s]|] eqn:Ek; [|exact Hinv..].
    apply button_page_range in Ek.
    unfold invariant. simpl. rewrite El. split; [lia|]. by split.
  - (* Row *)
    unfold tableCard.
    destruct (loading st) eqn:El; [exact Hinv|].
    destruct (truthy (error st)); [exact Hinv|].
    destruct (_ !! k) as [p|] eqn:Ek; [|exact Hinv].
    apply row_in_products in Ek.
    unfold invariant. simpl. rewrite El. split; [done|]. split; [done|].
    split; [|by split]. intros m [= <-]. by exists p.
  - (* Save *)
    destruct (modalProduct st) as [m|] eqn:Em; [|exact Hinv].
    unfold invariant. rewrite updateStock_timers, updateStock_now. simpl.
    split; [done|]. split.
    { intros El. destruct (Hload El) as [_ ?]. congruence. }
    split; [done|]. split.
    { right. by destruct (timers st). }
    apply Forall_app. split; [done|]. repeat constructor. simpl. lia.
  - (* Cancel *)
    unfold invariant. simpl. split; [done|]. split; [|by split].
    intros El. by destruct (Hload El).
  - (* Clock *)
    destruct (Z.leb_spec (now st) t) as [Ht|Ht]; [|exact Hinv].
    destruct (advance_frame t st) as (H1 & H2 & _ & H4 & H5 & _ & H7).
    unfold invariant. rewrite advance_message, advance_timers, H1, H2, H4, H5, H7.
    split; [done|]. split; [done|]. split; [done|]. split.
    + destruct (existsb (is_due t) (timers st)) eqn:Ed; [by left|].
      by rewrite filter_none_due.
    + apply filter_Forall. eapply Forall_impl; [exact Hdue|].
      intros tm Htm. simpl in Htm. lia.
Qed.

Lemma invariant_run (events : list Event) (st : HomeState) :
  invariant st -> invariant (run events st).
Proof.
  revert st. induction events as [|e events IH]; intros st H; [done|].
  simpl. apply IH. by apply invariant_step.
Qed.

End Runs.

(** X12. Along every run from the first render, the current page never
    falls below 1: Previous is disabled on page 1, every page button carries
    a page of at least 1, and a search returns to page 1. *)
Theorem currentPage_at_least_one (query : gmap string string) (events : list Event) :
  1 <= currentPage (run events (initialState query)).
Proof.
  by destruct (invariant_run events _ (invariant_initial query)) as [H _].
Qed.

(** X13. Along every run from the first render, an open modal is on a
    product of the collection: the lookup by id inside the stock update finds
    a product, and after Save some product with that id carries the new
    stock.  The fallback for an unknown id is never reached from the view. *)
Theorem save_finds_the_product
    (query : gmap string string) (events : list Event) (m : Product) (n : Z) :
  modalProduct (run events (initialState query)) = Some m ->
  (exists p,
     JS.find (fun q => String.eqb (id q) (id m))
       (products (run events (initialState query))) = Some p
     /\ id p = id m)
  /\ (exists k q,
        products (step (Save n) (run events (initialState query))) !! k = Some q
        /\ id q = id m /\ stock q = n).
Proof.
  intros Hm.
  destruct (invariant_run events _ (invariant_initial query)) as (_ & _ & Hmodal & _).
  destruct (Hmodal m Hm) as (p & Hin & Hid). split.
  - destruct (JS.find _ _) as [p'|] eqn:E.
    + exists p'. split; [done|]. apply find_some in E as [_ E]. by apply String.eqb_eq.
    + apply find_none in E. rewrite Forall_forall in E. specialize (E p Hin).
      simpl in E. apply String.eqb_neq in E. done.
  - simpl. rewrite Hm. apply list_elem_of_lookup in Hin as [k Hk].
    exists k, (with_stock p n). rewrite updateStock_lookup, Hk. simpl.
    by rewrite Hid, String.eqb_refl.
Qed.

Lemma save_finds_the_product_witness :
  modalProduct
    (run [Settle (ProductService.Fulfilled [Scenario.widget]); Row 0] (initialState ∅))
  = Some Scenario.widget
  /\ exists k q,
       products
         (step (Save 20)
            (run [Settle (ProductService.Fulfilled [Scenario.widget]); Row 0]
               (initialState ∅))) !! k = Some q
       /\ id q = id Scenario.widget /\ stock q = 20.
Proof.
  assert (H : modalProduct
                (run [Settle (ProductService.Fulfilled [Scenario.widget]); Row 0]
                   (initialState ∅)) = Some Scenario.widget) by reflexivity.
  split; [exact H|].
  destruct (save_finds_the_product ∅
              [Settle (ProductService.Fulfilled [Scenario.widget]); Row 0]
              Scenario.widget 20 H) as [_ E].
  exact E.
Defined.

(** X14. Along every run from the first render, no success message
    outlives the three seconds that follow the present moment: once the clock
    has advanced by 3000 ms or more, no message is on screen. *)
Theorem message_gone_within_three_seconds
    (query : gmap string string) (events : list Event) (t : Z) :
  now (run events (initialState query)) + 3000 <= t ->
  successMessage (step (Clock t) (run events (initialState query))) = None.
Proof.
  intros Ht.
  destruct (invariant_run events _ (invariant_initial query)) as (_ & _ & _ & Hmsg & Hdue).
  set (st := run events (initialState query)) in *.
  simpl. destruct (Z.leb_spec (now st) t) as [_|?]; [|lia].
  rewrite advance_message.
  destruct Hmsg as [->|Hne]; [by destruct (existsb _ _)|].
  destruct (timers st) as [|tm tms]; [done|].
  apply Forall_cons in Hdue as [Htm _]. simpl. unfold is_due at 1.
  destruct (Z.leb_spec (due tm) t) as [_|?]; [done | lia].
Qed.

Lemma message_gone_within_three_seconds_witness :
  now (run [Settle (ProductService.Fulfilled [Scenario.widget]); Row 0; Save 20]
         (initialState ∅)) + 3000 <= 3000
  /\ successMessage
       (step (Clock 3000)
          (run [Settle (ProductService.Fulfilled [Scenario.widget]); Row 0; Save 20]
             (initialState ∅))) = None.
Proof.
  assert (H : now (run [Settle (ProductService.Fulfilled [Scenario.widget]); Row 0; Save 20]
                     (initialState ∅)) + 3000 <= 3000) by (vm_compute; discriminate).
  split; [exact H|].
  exact (message_gone_within_three_seconds ∅ _ 3000 H).
Defined.

(** ** After the load *)

Section Loaded.

Lemma same_catalogue_refl (ps : list Product) : Spec.same_catalogue ps ps.
Proof. unfold Spec.same_catalogue. induction ps; by constructor. Qed.

Lemma same_catalogue_trans (ps qs rs : list Product) :
  Spec.same_catalogue ps qs -> Spec.same_catalogue qs rs -> Spec.same_catalogue ps rs.
Proof.
  unfold Spec.same_catalogue. intros H1. revert rs.
  induction H1 as [|p q ps qs (?&?&?&?) _ IH]; intros rs Hqr;
    inversion Hqr as [|? r ? rs' (?&?&?&?) Hrest]; subst; constructor.
  - repeat split; congruence.
  - by apply IH.
Qed.

Lemma same_catalogue_update (ps : list Product) (i : string) (n : Z) :
  Spec.same_catalogue ps
    (JS.map (fun p => if String.eqb (id p) i then with_stock p n else p) ps).
Proof.
  unfold Spec.same_catalogue. induction ps as [|p ps IH]; simpl; constructor; [|done].
  by destruct (String.eqb (id p) i).
Qed.

(** Once loaded, an event changes no product but in its stock, and brings
    back neither the skeleton nor a different error. *)
Lemma step_loaded (e : Event) (st : HomeState) :
  loading st = false ->
  loading (step e st) = false
  /\ error (step e st) = error st
  /\ Spec.same_catalogue (products st) (products (step e st)).
Proof.
  intros El.
  assert (Hsame : loading st = false /\ error st = error st
                  /\ Spec.same_catalogue (products st) (products st)).
  { split; [done|]. split; [done|]. apply same_catalogue_refl. }
  destruct e as [outcome|value| | |k|k|newStock| |t]; simpl.
  - by rewrite El.
  - exact Hsame.
  - by destruct (_ && _).
  - by destruct (_ && _).
  - destruct (paginationShown st); [|done]. by destruct (_ !! k) as [[?|?]|].
  - destruct (tableCard st); [done..|]. by destruct (_ !! k).
  - destruct (modalProduct st); [|done].
    split; [done|]. split; [done|]. rewrite updateStock_products.
    apply same_catalogue_update.
  - exact Hsame.
  - destruct (now st <=? t); [|done].
    destruct (advance_frame t st) as (H1 & H2 & H3 & _). by rewrite H1, H2, H3.
Qed.

Lemma run_loaded (events : list Event) (st : HomeState) :
  loading st = false ->
  loading (run events st) = false
  /\ error (run events st) = error st
  /\ Spec.same_catalogue (products st) (products (run events st)).
Proof.
  revert st. induction events as [|e events IH]; intros st El; simpl.
  - split; [done|]. split; [done|]. apply same_catalogue_refl.
  - destruct (step_loaded e st El) as (Hl & He & Hc).
    destruct (IH _ Hl) as (Hl' & He' & Hc').
    split; [done|]. split; [congruence|]. by eapply same_catalogue_trans.
Qed.

End Loaded.

(** X15. Mounted on the product service, the view shows the table from the
    first settled render on, whatever happens next: never the skeleton, never
    the error text.  The collection stays the catalogue of the service: same
    products in the same order with the same id, name, sku and category;
    only stocks differ, and no product is added or removed. *)
Theorem mounted_view_shows_catalogue
    (store : list Product) (query : gmap string string) (events : list Event) :
  loading (run events (mount store query)) = false
  /\ error (run events (mount store query)) = None
  /\ tableCard (run events (mount store query))
     = Table (currentProducts (filtered (run events (mount store query)))
                (currentPage (run events (mount store query))))
  /\ Spec.same_catalogue store (products (run events (mount store query)))
  /\ length (products (run events (mount store query))) = length store.
Proof.
  destruct (run_loaded events (mount store query) eq_refl) as (Hl & He & Hc).
  change (error (mount store query)) with (@None string) in He.
  change (products (mount store query)) with store in Hc.
  split; [done|]. split; [done|]. split; [|split; [done|]].
  - unfold tableCard. by rewrite Hl, He.
  - symmetry. by eapply Forall2_length.
Qed.

(** X16. A failed load is final.  After the fetch has been rejected, every
    run keeps the error text in place of the table, the collection stays
    empty and no modal ever opens: nothing retries the fetch. *)
Theorem failed_load_is_final (query : gmap string string) (events : list Event) :
  tableCard (run events (step (Settle ProductService.Rejected) (initialState query)))
  = ErrorBox "Failed to fetch products. Please try again."
  /\ products (run events (step (Settle ProductService.Rejected) (initialState query)))
     = []
  /\ modalProduct
       (run events (step (Settle ProductService.Rejected) (initialState query)))
     = None.
Proof.
  set (st0 := step (Settle ProductService.Rejected) (initialState query)).
  assert (H0 : loading st0 = false /\ modalProduct st0 = None
               /\ error st0 = Some "Failed to fetch products. Please try again.")
    by done.
  assert (Hrun : forall st,
            loading st = false /\ modalProduct st = None
            /\ error st = Some "Failed to fetch products. Please try again." ->
            modalProduct (run events st) = None).
  { induction events as [|e events IH]; intros st (Hl & Hm & He); [done|].
    simpl. apply IH. destruct (step_loaded e st Hl) as (Hl' & He' & _).
    split; [done|]. split; [|congruence].
    destruct e as [outcome|value| | |k|k|newStock| |t]; simpl.
    - by rewrite Hl.
    - done.
    - by destruct (_ && _).
    - by destruct (_ && _).
    - destruct (paginationShown st); [|done]. by destruct (_ !! k) as [[?|?]|].
    - unfold tableCard. by rewrite Hl, He.
    - by rewrite Hm.
    - done.
    - destruct (now st <=? t); [|done].
      destruct (advance_frame t st) as (_ & _ & _ & _ & H5 & _). by rewrite H5. }
  destruct H0 as (Hl & Hm & He).
  destruct (run_loaded events st0 Hl) as (Hl' & He' & Hc).
  split; [|split].
  - unfold tableCard. by rewrite Hl', He', He.
  - change (products st0) with (@nil Product) in Hc. by inversion Hc.
  - by apply Hrun.
Qed.

(** ** Staying on a page that exists *)

Lemma totalPages_positive (l : list Product) : l <> [] -> 1 <= totalPages l.
Proof.
  intros Hl. pose proof (totalPages_nonneg l) as Hnn.
  destruct (decide (totalPages l = 0)) as [E|E]; [|lia].
  by apply totalPages_zero in E.
Qed.

Lemma advance_filtered (t : Z) (st : HomeState) : filtered (advance t st) = filtered st.
Proof.
  destruct (advance_frame t st) as (H1 & _ & _ & _ & _ & H6 & _).
  unfold filtered, searchQuery. by rewrite H1, H6.
Qed.

(** X17. Along every run from the first render, the controls keep the
    current page among the pages [1..max(1, totalPages)]: if it is there
    before an event it is there after it, for every event except a click on
    Next while nothing matches the search. *)
Theorem page_stays_in_range
    (query : gmap string string) (events : list Event) (e : Event) :
  Spec.page_in_range (run events (initialState query)) ->
  (e = Next -> filtered (run events (initialState query)) <> []) ->
  Spec.page_in_range (step e (run events (initialState query))).
Proof.
  destruct (invariant_run events _ (invariant_initial query)) as (_ & Hload & _).
  set (st := run events (initialState query)) in *.
  unfold Spec.page_in_range. intros Hr Hnext.
  pose proof (totalPages_nonneg (filtered st)) as Hnn.
  destruct e as [outcome|value| | |k|k|newStock| |t]; simpl.
  - (* Settle *)
    destruct (loading st) eqn:El; [|done].
    destruct (Hload eq_refl) as [Hps _].
    assert (Hc : currentPage st = 1).
    { unfold filtered in Hr. rewrite Hps in Hr.
      change (totalPages (filteredProducts [] (searchQuery st))) with 0 in Hr. lia. }
    destruct outcome as [data|].
    + change (currentPage (fetchProducts (ProductService.Fulfilled data) st))
        with (currentPage st). lia.
    + change (currentPage (fetchProducts ProductService.Rejected st))
        with (currentPage st). lia.
  - (* Search *)
    change (currentPage (handleSearch value st)) with 1. lia.
  - (* Previous *)
    destruct (paginationShown st); simpl; [|done].
    unfold previousDisabled. destruct (Z.eqb_spec (currentPage st) 1); simpl; [done|].
    change (filtered (paginate (currentPage st - 1) st)) with (filtered st). lia.
  - (* Next *)
    destruct (paginationShown st); simpl; [|done].
    unfold nextDisabled.
    destruct (Z.eqb_spec (currentPage st) (totalPages (filtered st))); simpl; [done|].
    change (filtered (paginate (currentPage st + 1) st)) with (filtered st).
    pose proof (totalPages_positive _ (Hnext eq_refl)). lia.
  - (* PageButton *)
    destruct (paginationShown st); [|done].
    destruct (pageButtons st !! k) as [[n|s]|] eqn:Ek; [|done..].
    apply button_page_range in Ek.
    change (filtered (paginate n st)) with (filtered st). simpl. lia.
  - (* Row *)
    destruct (tableCard st); [done..|]. by destruct (_ !! k).
  - (* Save *)
    destruct (modalProduct st) as [m|]; [|done].
    change (currentPage (updateStock (id m) newStock st)) with (currentPage st).
    unfold totalPages. rewrite updateStock_filtered, map_length. exact Hr.
  - (* Cancel *)
    done.
  - (* Clock *)
    destruct (now st <=? t); [|done].
    destruct (advance_frame t st) as (_ & _ & _ & H4 & _).
    by rewrite H4, advance_filtered.
Qed.

Lemma page_stays_in_range_witness :
  Spec.page_in_range
    (run [Settle (ProductService.Fulfilled [Scenario.widget])] (initialState ∅))
  /\ (Next = Next ->
      filtered (run [Settle (ProductService.Fulfilled [Scenario.widget])] (initialState ∅))
      <> [])
  /\ Spec.page_in_range
       (step Next
          (run [Settle (ProductService.Fulfilled [Scenario.widget])] (initialState ∅))).
Proof.
  assert (H1 : Spec.page_in_range
                 (run [Settle (ProductService.Fulfilled [Scenario.widget])]
                    (initialState ∅))).
  { unfold Spec.page_in_range. vm_compute. split; discriminate. }
  assert (H2 : Next = Next ->
               filtered (run [Settle (ProductService.Fulfilled [Scenario.widget])]
                           (initialState ∅)) <> []).
  { intros _. vm_compute. discriminate. }
  split; [exact H1|]. split; [exact H2|].
  exact (page_stays_in_range ∅ _ Next H1 H2).
Defined.

(** ** What reaches the submit callback *)

(** X18. For every text of the field, the form hands the text to its submit
    callback, as typed, when the text is one or more decimal digits, and
    blocks the submission otherwise: an empty, signed, fractional or blank
    text, or one with letters, is rejected by the required rule or by the
    pattern rule and never reaches the callback. *)
Theorem handleSubmit_only_digits {A} (submit : string -> A) (value : string) :
  StockModal.handleSubmit submit value
  = Some (if StockModal.pattern_test value then Some (submit value) else None)
  /\ (StockModal.pattern_test value = false ->
      StockModal.rejects StockModal.Required value = Some true
      \/ StockModal.rejects StockModal.Pattern value = Some true).
Proof.
  unfold StockModal.handleSubmit, StockModal.blocked, StockModal.cleared,
    StockModal.rules.
  cbn [existsb forallb]. cbn [StockModal.rejects].
  destruct (decide (value = "")) as [->|Hne]; [by split; [|left]|].
  rewrite (bool_decide_false (value = "")) by done.
  destruct (StockModal.pattern_test value) eqn:Hp.
  - rewrite to_number_digits by done.
    apply pattern_test_digits in Hp as [_ Hd].
    pose proof (digits_value_nonneg value 0 Hd ltac:(lia)) as Hv.
    unfold StockModal.min_value. simpl.
    by destruct (Z.ltb_spec (StockModal.digits_value 0 value) 0); [lia|].
  - split; [|by right]. simpl. by rewrite !orb_true_r.
Qed.

(** ** Printing and reading a stock quantity *)

Section StockText.
Import StockModal.

Lemma digits_of_uint_acc (d : Decimal.uint) (acc : positive) :
  digits_value (Z.pos acc) (NilEmpty.string_of_uint d)
  = Z.pos (Pos.of_uint_acc d acc).
Proof.
  revert acc. induction d as [|d IH|d IH|d IH|d IH|d IH|d IH|d IH|d IH|d IH|d IH];
    intros acc; [done|..]; simpl; rewrite <- IH; f_equal; lia.
Qed.

Lemma digits_of_uint (d : Decimal.uint) :
  digits_value 0 (NilEmpty.string_of_uint d) = Z.of_N (Pos.of_uint d).
Proof.
  induction d as [|d IH|d IH|d IH|d IH|d IH|d IH|d IH|d IH|d IH|d IH];
    [done | exact IH | ..]; simpl; by rewrite <- digits_of_uint_acc.
Qed.

Lemma all_digits_of_uint (d : Decimal.uint) :
  all_digits (NilEmpty.string_of_uint d) = true.
Proof. induction d; simpl; done. Qed.

Lemma pattern_test_of_uint (d : Decimal.uint) :
  d <> Decimal.Nil -> pattern_test (NilEmpty.string_of_uint d) = true.
Proof.
  intros Hd. apply pattern_test_digits. split; [|apply all_digits_of_uint].
  by destruct d.
Qed.

Lemma string_of_pos (p : positive) :
  NilZero.string_of_uint (Pos.to_uint p) = NilEmpty.string_of_uint (Pos.to_uint p)
  /\ pattern_test (NilEmpty.string_of_uint (Pos.to_uint p)) = true
  /\ digits_value 0 (NilEmpty.string_of_uint (Pos.to_uint p)) = Z.pos p.
Proof.
  pose proof (Unsigned.to_uint_nonnil p) as Hnn.
  split; [by destruct (Pos.to_uint p)|]. split; [by apply pattern_test_of_uint|].
  by rewrite digits_of_uint, DecimalPos.Unsigned.of_to.
Qed.

End StockText.

(** X19. For a stock quantity that a number holds exactly (an integer of
    magnitude at most 2^53 - 1), the decimal text that the success message
    prints reads back as the same quantity.  The text passes the required
    rule, and it passes the minimum rule and the pattern rule exactly when
    the quantity is not negative. *)
Theorem stock_text_roundtrip (n : Z) :
  - 9007199254740991 <= n <= 9007199254740991 ->
  StockModal.to_number (JS.number_to_string n) = Some n
  /\ StockModal.rejects StockModal.Required (JS.number_to_string n) = Some false
  /\ StockModal.rejects StockModal.Min (JS.number_to_string n) = Some (n <? 0)
  /\ StockModal.rejects StockModal.Pattern (JS.number_to_string n) = Some (n <? 0).
Proof.
  intros _.
  unfold JS.number_to_string. destruct n as [|p|p]; [by repeat split|..];
    destruct (string_of_pos p) as (E & Hp & Hv); simpl Z.to_int;
    unfold NilZero.string_of_int; rewrite E.
  - assert (Hne : NilEmpty.string_of_uint (Pos.to_uint p) <> "").
    { by apply pattern_test_digits in Hp as [? _]. }
    unfold StockModal.rejects. rewrite !decide_False, bool_decide_false by done.
    rewrite to_number_digits, Hv, Hp by done. by repeat split.
  - unfold StockModal.rejects. rewrite !decide_False, bool_decide_false by done.
    assert (Ht : StockModal.to_number (String "-" (NilEmpty.string_of_uint (Pos.to_uint p)))
                 = Some (Z.neg p)).
    { cbn [StockModal.to_number]. by rewrite Hp, Hv. }
    rewrite Ht. by repeat split.
Qed.

Lemma stock_text_roundtrip_witness :
  - 9007199254740991 <= 20 <= 9007199254740991
  /\ StockModal.to_number (JS.number_to_string 20) = Some 20.
Proof.
  split; [lia|].
  destruct (stock_text_roundtrip 20) as [E _]; [lia | exact E].
Defined.

(** ** What the search looks at *)

(** X20. The search looks at names only.  The names of the products listed
    are the names of the collection filtered by the text, so two collections
    with the same names in the same order list products at the same
    positions, whatever their sku, category and stock are. *)
Theorem filteredProducts_by_name_only (ps qs : list Product) (s : string) :
  name <$> filteredProducts ps s
  = JS.filter (fun nm => JS.includes (JS.toLowerCase nm) (JS.toLowerCase s)) (name <$> ps)
  /\ (name <$> ps = name <$> qs ->
      name <$> filteredProducts ps s = name <$> filteredProducts qs s).
Proof.
  assert (E : forall l,
            name <$> filteredProducts l s
            = JS.filter (fun nm => JS.includes (JS.toLowerCase nm) (JS.toLowerCase s))
                (name <$> l)).
  { intros l. unfold filteredProducts. induction l as [|p l IH]; [done|].
    rewrite fmap_cons. simpl. destruct (JS.includes _ _); [|done].
    by rewrite fmap_cons, IH. }
  split; [apply E|]. intros Hn. by rewrite !E, Hn.
Qed.
